(** * dPad-3D: the directional pad visual ([src/visual.ts])

    A shallow embedding of [visualTransform] and of the class [Visual]
    (constructor, [update], [step]), followed by the properties of the
    position state machine.

    Modelling conventions.
    - A JavaScript [number] that holds an integer is a [Z].  Doubles are exact
      on integers of magnitude below 2^53, far beyond any grid index or
      heading the control can reach by single clicks.
    - [Number.prototype.toString] on such a number is the decimal numeral, which
      is stdpp's [pretty] on [Z].
    - A value that may be [undefined] is an [option]; reading a property of
      [undefined] or [null] throws, which is [Throw TypeError].
    - The host's selection manager is the list of identifiers handed to
      [select], oldest first.
    - Drawing (d3, svg attributes, console output) has no influence on the
      state and is left out.
    - A position record is a data point of the view model; it carries a pose
      when its measure name, ['X' + h + 'Y' + v + 'V' + r], is the one [step]
      builds from the pose. *)

From Stdlib Require Import ZArith List Lia Ascii Reals Lra.
From stdpp Require Import base option list gmap strings pretty.

Local Open Scope Z_scope.

(** ** Abrupt completion *)

Inductive JsError : Type := TypeError.

Inductive completion (A : Type) : Type :=
  | Normal (a : A)
  | Throw (e : JsError).
Arguments Normal {A} a.
Arguments Throw {A} e.

#[global] Instance completion_ret : MRet completion := @Normal.
#[global] Instance completion_bind : MBind completion := fun A B k c =>
  match c with
  | Normal a => k a
  | Throw e => Throw e
  end.

#[global] Instance completion_fmap : FMap completion := fun A B f c =>
  match c with
  | Normal a => Normal (f a)
  | Throw e => Throw e
  end.

(** Reading a property through a reference that may be [undefined]. *)
Definition deref {A : Type} (o : option A) : completion A :=
  match o with
  | Some a => Normal a
  | None => Throw TypeError
  end.

(** ** Host data: the data view handed to [update] *)

Inductive PrimitiveValue : Type :=
  | PNumber (n : Z)
  | PString (s : string)
  | PNull.

Inductive DataViewPropertyValue : Type :=
  | PropBoolean (b : bool)
  | PropNumber (n : Z).

Record DataViewMetadataColumn : Type := {
  displayName : string;
  roles : gmap string bool
}.

Record DataViewCategoryColumn : Type := {
  source : DataViewMetadataColumn;
  values : list PrimitiveValue
}.

Record DataViewCategorical : Type := {
  categories : option (list DataViewCategoryColumn)
}.

Record DataViewMetadata : Type := {
  columns : list DataViewMetadataColumn;
  objects : option (gmap string (gmap string DataViewPropertyValue))
}.

Record DataView : Type := {
  metadata : DataViewMetadata;
  categorical : option DataViewCategorical
}.

Record VisualUpdateOptions : Type := {
  dataViews : list DataView
}.

(** ** View model *)

(** A selection identifier as built by the host's builder: the category row
    given to [withCategory] and the measure given to [withMeasure], the latter
    being what [getSelector().metadata] returns. *)
Record ISelectionId : Type := {
  categoryRow : option (string * nat);
  selectorMetadata : option string
}.

Record CategoryDataPoint : Type := {
  category : string;
  selectionId : ISelectionId
}.

Record VisualSettings : Type := {
  horizontal : DataViewPropertyValue;
  vertical : DataViewPropertyValue;
  incremental : DataViewPropertyValue
}.

Record ViewModel : Type := {
  horizontalDataPoints : list CategoryDataPoint;
  verticalDataPoints : list CategoryDataPoint;
  dataPoints : list CategoryDataPoint;
  numberOfAxis : Z;
  sortedBy : string;
  settings : VisualSettings
}.

#[global] Instance PrimitiveValue_eq_dec : EqDecision PrimitiveValue.
Proof. solve_decision. Defined.
#[global] Instance ISelectionId_eq_dec : EqDecision ISelectionId.
Proof. solve_decision. Defined.
#[global] Instance CategoryDataPoint_eq_dec : EqDecision CategoryDataPoint.
Proof. solve_decision. Defined.

(** ** Strings *)

(** [n.toString()] for an integer-valued number. *)
Definition numberToString (n : Z) : string := pretty n.

(** [v.toString()]; it throws on [null]. *)
Definition toString (v : PrimitiveValue) : completion string :=
  match v with
  | PNumber n => Normal (numberToString n)
  | PString s => Normal s
  | PNull => Throw TypeError
  end.

(** [v + ''], where [v] may be [undefined] (an index past the end). *)
Definition concatEmpty (v : option PrimitiveValue) : string :=
  match v with
  | Some (PNumber n) => numberToString n
  | Some (PString s) => s
  | Some PNull => "null"
  | None => "undefined"
  end.

(** The measure name ['X' + h + 'Y' + v + 'V' + r] shared by [visualTransform]
    (from the strings of a data row) and [step] (from the target pose). *)
Definition positionMetadata (h v r : string) : string :=
  "X" +:+ h +:+ "Y" +:+ v +:+ "V" +:+ r.

(** A string in which the character [c] does not occur. *)
Fixpoint avoids (c : ascii) (s : string) : Prop :=
  match s with
  | EmptyString => True
  | String a s' => a <> c /\ avoids c s'
  end.

(** The separators of a measure name that follow the first numeral. *)
Definition letter (c : ascii) : Prop := c = "Y"%char \/ c = "V"%char.

(** ** [visualTransform] *)

(** Modelled from the spec: [getValue(objects, objectName, propertyName,
    defaultValue)] is not part of the sources at hand; the configuration
    toggles are read on each refresh, and a property that the data view does
    not carry takes the default the call site supplies. *)
Definition getValue (objs : option (gmap string (gmap string DataViewPropertyValue)))
    (objectName propertyName : string) (defaultValue : DataViewPropertyValue)
    : DataViewPropertyValue :=
  match objs with
  | Some o =>
      match o !! objectName with
      | Some props => default defaultValue (props !! propertyName)
      | None => defaultValue
      end
  | None => defaultValue
  end.

Definition hasOwnProperty (c : DataViewMetadataColumn) (role : string) : bool :=
  bool_decide (is_Some (roles c !! role)).

(** The display names and the sort key found by the loop over
    [metadata.columns]. *)
Record RoleNames : Type := {
  horizontalDisplayName : string;
  verticalDisplayName : string;
  rotationDisplayName : string;
  sortedByName : string
}.

Definition scanColumn (i : nat) (c : DataViewMetadataColumn) (acc : RoleNames)
    : RoleNames :=
  if hasOwnProperty c "horizontalCategory" then
    {| horizontalDisplayName := displayName c;
       verticalDisplayName := verticalDisplayName acc;
       rotationDisplayName := rotationDisplayName acc;
       sortedByName := if decide (i = 0%nat) then "horizontal" else sortedByName acc |}
  else if hasOwnProperty c "verticalCategory" then
    {| horizontalDisplayName := horizontalDisplayName acc;
       verticalDisplayName := displayName c;
       rotationDisplayName := rotationDisplayName acc;
       sortedByName := if decide (i = 0%nat) then "vertical" else sortedByName acc |}
  else if hasOwnProperty c "rotationCategory" then
    {| horizontalDisplayName := horizontalDisplayName acc;
       verticalDisplayName := verticalDisplayName acc;
       rotationDisplayName := displayName c;
       sortedByName := sortedByName acc |}
  else acc.

Fixpoint scanColumns (i : nat) (cols : list DataViewMetadataColumn)
    (acc : RoleNames) : RoleNames :=
  match cols with
  | [] => acc
  | c :: cols' => scanColumns (S i) cols' (scanColumn i c acc)
  end.

(** The three indices found by the loop over [categorical.categories];
    [-1] stands for "not found", as in the source. *)
Record RoleIndices : Type := {
  horizontalIdxInCategories : Z;
  verticalIdxInCategories : Z;
  rotationIdxInCategories : Z
}.

Definition scanCategory (names : RoleNames) (i : nat)
    (c : DataViewCategoryColumn) (acc : RoleIndices) : RoleIndices :=
  let name := displayName (source c) in
  if decide (name = horizontalDisplayName names) then
    {| horizontalIdxInCategories := Z.of_nat i;
       verticalIdxInCategories := verticalIdxInCategories acc;
       rotationIdxInCategories := rotationIdxInCategories acc |}
  else if decide (name = verticalDisplayName names) then
    {| horizontalIdxInCategories := horizontalIdxInCategories acc;
       verticalIdxInCategories := Z.of_nat i;
       rotationIdxInCategories := rotationIdxInCategories acc |}
  else if decide (name = rotationDisplayName names) then
    {| horizontalIdxInCategories := horizontalIdxInCategories acc;
       verticalIdxInCategories := verticalIdxInCategories acc;
       rotationIdxInCategories := Z.of_nat i |}
  else acc.

Fixpoint scanCategories (names : RoleNames) (i : nat)
    (cats : list DataViewCategoryColumn) (acc : RoleIndices) : RoleIndices :=
  match cats with
  | [] => acc
  | c :: cats' => scanCategories names (S i) cats' (scanCategory names i c acc)
  end.

(** [let c; if (idx > -1) c = categories[idx];] *)
Definition categoryAt (cats : list DataViewCategoryColumn) (idx : Z)
    : option DataViewCategoryColumn :=
  if bool_decide (idx > -1) then cats !! Z.to_nat idx else None.

(** [c.values[i].toString()] with [c] possibly [undefined]. *)
Definition valueString (c : option DataViewCategoryColumn) (i : nat)
    : completion string :=
  col ← deref c;
  v ← deref (values col !! i);
  toString v.

(** One iteration of the loop that fills [dataPoints]. *)
Definition positionDataPoint
    (horizontalCategory verticalCategory rotationCategory : option DataViewCategoryColumn)
    (i : nat) (v : PrimitiveValue) : completion CategoryDataPoint :=
  x ← valueString horizontalCategory i;
  y ← valueString verticalCategory i;
  r ← valueString rotationCategory i;
  col ← deref horizontalCategory;
  mret {| category := concatEmpty (Some v);
          selectionId :=
            {| categoryRow := Some (displayName (source col), i);
               selectorMetadata := Some (positionMetadata x y r) |} |}.

Fixpoint positionDataPoints
    (horizontalCategory verticalCategory rotationCategory : option DataViewCategoryColumn)
    (i : nat) (vals : list PrimitiveValue) : completion (list CategoryDataPoint) :=
  match vals with
  | [] => mret []
  | v :: vals' =>
      dp ← positionDataPoint horizontalCategory verticalCategory rotationCategory i v;
      dps ← positionDataPoints horizontalCategory verticalCategory rotationCategory
              (S i) vals';
      mret (dp :: dps)
  end.

(** The loops that fill [horizontalDataPoints] and [verticalDataPoints]. *)
Definition axisDataPoints (c : DataViewCategoryColumn) : list CategoryDataPoint :=
  imap (fun i v =>
          {| category := concatEmpty (Some v);
             selectionId :=
               {| categoryRow := Some (displayName (source c), i);
                  selectorMetadata := None |} |})
       (values c).

Definition guardedAxisDataPoints (idx : Z) (c : option DataViewCategoryColumn)
    : completion (list CategoryDataPoint) :=
  if bool_decide (idx > -1) then col ← deref c; mret (axisDataPoints col)
  else mret [].

Definition countAxis (idx : Z) : Z := if bool_decide (idx > -1) then 1 else 0.

Definition visualTransform (options : VisualUpdateOptions) : completion ViewModel :=
  dv ← deref (dataViews options !! 0%nat);
  let names :=
    scanColumns 0 (columns (metadata dv))
      {| horizontalDisplayName := EmptyString; verticalDisplayName := EmptyString;
         rotationDisplayName := EmptyString; sortedByName := EmptyString |} in
  cat ← deref (categorical dv);
  cats ← deref (categories cat);
  let idx :=
    scanCategories names 0 cats
      {| horizontalIdxInCategories := -1; verticalIdxInCategories := -1;
         rotationIdxInCategories := -1 |} in
  let horizontalCategory := categoryAt cats (horizontalIdxInCategories idx) in
  let verticalCategory := categoryAt cats (verticalIdxInCategories idx) in
  let rotationCategory := categoryAt cats (rotationIdxInCategories idx) in
  let numberOfAxis :=
    countAxis (horizontalIdxInCategories idx)
    + countAxis (verticalIdxInCategories idx)
    + countAxis (rotationIdxInCategories idx) in
  let objs := objects (metadata dv) in
  let visualSettings :=
    {| horizontal := getValue objs "settings" "horizontal" (PropBoolean true);
       vertical := getValue objs "settings" "vertical" (PropBoolean true);
       incremental := getValue objs "settings" "incremental" (PropNumber 1) |} in
  first ← deref (cats !! 0%nat);
  dps ← positionDataPoints horizontalCategory verticalCategory rotationCategory
          0 (values first);
  hdps ← guardedAxisDataPoints (horizontalIdxInCategories idx) horizontalCategory;
  vdps ← guardedAxisDataPoints (verticalIdxInCategories idx) verticalCategory;
  mret {| horizontalDataPoints := hdps;
          verticalDataPoints := vdps;
          dataPoints := dps;
          numberOfAxis := numberOfAxis;
          sortedBy := sortedByName names;
          settings := visualSettings |}.

(** ** The [Math] library

    [step] evaluates [Math.round(displacement * Math.sin(rotation * Math.PI / 180))]
    and the same with [Math.cos], on doubles.  Both are functions of the two
    integers [displacement] and [rotation]; which integer comes out is decided
    by the engine's floating-point [sin] and [cos], so the two composites are
    taken as an interface.  ([Math.round] may return the negative zero; added
    to a grid index it counts as zero.) *)
Class MathLib : Type := {
  roundScaledSin : Z -> Z -> Z;
  roundScaledCos : Z -> Z -> Z
}.

(** The eight headings of the pad. *)
Definition heading (r : Z) : Prop := exists k : Z, 0 <= k < 8 /\ r = 45 * k.

#[global] Instance heading_dec (r : Z) : Decision (heading r).
Proof.
  refine (cast_if (decide (0 <= r < 360 /\ r mod 45 = 0))); unfold heading.
  - destruct a as [Hr Hm]. exists (r / 45).
    pose proof (Z.div_mod r 45 ltac:(lia)). lia.
  - intros [k [Hk ->]]. apply n. split; [lia|].
    rewrite Z.mul_comm. apply Z_mod_mult.
Defined.

(** What [Math.round] makes of the sine and cosine of a heading: the values
    0, 0.707.., 1 and their opposites, up to an error of a few units in the
    last place, round to 0, 1, 1 and their opposites. *)
Definition headingSin (r : Z) : Z :=
  match r with
  | 45 | 90 | 135 => 1
  | 225 | 270 | 315 => -1
  | _ => 0
  end.

Definition headingCos (r : Z) : Z :=
  match r with
  | 0 | 45 | 315 => 1
  | 135 | 180 | 225 => -1
  | _ => 0
  end.

(** A [Math] library that is right at unit displacement on the headings. *)
Definition HeadingTable (M : MathLib) : Prop :=
  forall r : Z, heading r ->
    roundScaledSin 1 r = headingSin r /\ roundScaledCos 1 r = headingCos r.

(** The same two composites in exact arithmetic: [Math.round] is the floor of
    [x + 1/2], and the sine and cosine are those of the reals.  A double
    evaluation differs from these by a few units in the last place, which
    matters only where [k * sin] or [k * cos] falls on a half-integer. *)
Definition Math_round (x : R) : Z := Int_part (x + / 2)%R.

Definition sinDegrees (k r : Z) : R := (IZR k * sin (IZR r * PI / 180))%R.
Definition cosDegrees (k r : Z) : R := (IZR k * cos (IZR r * PI / 180))%R.

Definition exactMath : MathLib :=
  {| roundScaledSin := fun k r => Math_round (sinDegrees k r);
     roundScaledCos := fun k r => Math_round (cosDegrees k r) |}.

(** ** The class [Visual] *)

Record Visual : Type := {
  visualSettings : option VisualSettings;
  selectionManager : list ISelectionId;
  viewModel : option ViewModel;
  lastSelected : Z;
  lastHorizontal : Z;
  lastVertical : Z;
  lastRotation : Z
}.

Definition Visual_constructor : Visual :=
  {| visualSettings := None;
     selectionManager := [];
     viewModel := None;
     lastSelected := 0;
     lastHorizontal := 1;
     lastVertical := 1;
     lastRotation := 0 |}.

Definition buttonNames : list string := ["up"; "down"; "left"; "right"].
Definition buttonStep : list Z := [1; -1; -1; 1].
Definition buttonDirection : list string := ["d"; "d"; "r"; "r"].

Definition update (options : VisualUpdateOptions) (this : Visual)
    : completion Visual :=
  vm ← visualTransform options;
  mret {| visualSettings := Some (settings vm);
          selectionManager := selectionManager this;
          viewModel := Some vm;
          lastSelected := lastSelected this;
          lastHorizontal := lastHorizontal this;
          lastVertical := lastVertical this;
          lastRotation := lastRotation this |}.

Definition displacement : Z := 1.
Definition rotationStep : Z := 45.

(** The loop over [viewModel.dataPoints], leaving at the first match. *)
Fixpoint findSelectionId (newPositionMetadata : string)
    (dps : list CategoryDataPoint) : option ISelectionId :=
  match dps with
  | [] => None
  | dataPoint :: rest =>
      if decide (selectorMetadata (selectionId dataPoint) = Some newPositionMetadata)
      then Some (selectionId dataPoint)
      else findSelectionId newPositionMetadata rest
  end.

(** The measure name of a pose, as [step] builds it. *)
Definition poseMetadata (p : Z * Z * Z) : string :=
  let '(h, v, r) := p in
  positionMetadata (numberToString h) (numberToString v) (numberToString r).


(** ** [enumerateObjectInstances] *)

Record NumberRange : Type := {
  numberRange_min : Z;
  numberRange_max : Z
}.

(** An entry of the property pane: the three properties, the range declared
    for [incremental], and the selector, which is [null]. *)
Record VisualObjectInstance : Type := {
  objectName : string;
  properties : VisualSettings;
  validValues_incremental : NumberRange;
  selector : option ISelectionId
}.

Definition enumerateObjectInstances (name : string) (this : Visual)
    : completion (list VisualObjectInstance) :=
  if decide (name = "settings") then
    vs ← deref (visualSettings this);
    mret [ {| objectName := name;
              properties :=
                {| horizontal := horizontal vs;
                   vertical := vertical vs;
                   incremental := incremental vs |};
              validValues_incremental :=
                {| numberRange_min := 1; numberRange_max := 100 |};
              selector := None |} ]
  else mret [].

(** ** Vocabulary of the further properties *)

(** The names and indices that [visualTransform] computes for a data view. *)
Definition roleNames (dv : DataView) : RoleNames :=
  scanColumns 0 (columns (metadata dv))
    {| horizontalDisplayName := EmptyString; verticalDisplayName := EmptyString;
       rotationDisplayName := EmptyString; sortedByName := EmptyString |}.

Definition roleIndices (dv : DataView) (cats : list DataViewCategoryColumn)
    : RoleIndices :=
  scanCategories (roleNames dv) 0 cats
    {| horizontalIdxInCategories := -1; verticalIdxInCategories := -1;
       rotationIdxInCategories := -1 |}.

(** [idx] is the index of the last element of [cats] that satisfies [P], or
    [-1] when there is none. *)
Definition isLastIndex (P : DataViewCategoryColumn -> Prop)
    (cats : list DataViewCategoryColumn) (idx : Z) : Prop :=
  (idx = -1 /\ forall c, c ∈ cats -> ~ P c)
  \/ (exists (j : nat) (c : DataViewCategoryColumn),
        idx = Z.of_nat j
        /\ cats !! j = Some c
        /\ P c
        /\ forall (j' : nat) (c' : DataViewCategoryColumn),
             (j < j')%nat -> cats !! j' = Some c' -> ~ P c').

(** The string of row [i] of a category, when the row is there and not null. *)
Definition rowString (c : DataViewCategoryColumn) (i : nat) : option string :=
  match values c !! i with
  | Some (PNumber n) => Some (numberToString n)
  | Some (PString s) => Some s
  | Some PNull | None => None
  end.

(** The sum of a list of steps. *)
Definition sumSteps (steps : list Z) : Z := foldr Z.add 0 steps.

(** The display name of the last column that satisfies [P], or [name] when
    there is none. *)
Definition lastDisplayName (P : DataViewMetadataColumn -> bool) (name : string)
    (cols : list DataViewMetadataColumn) : string :=
  foldl (fun name c => if P c then displayName c else name) name cols.


(** The tests that [scanCategory] makes of a category, in their order. *)
Definition isHorizontal (names : RoleNames) (c : DataViewCategoryColumn) : Prop :=
  displayName (source c) = horizontalDisplayName names.
Definition isVertical (names : RoleNames) (c : DataViewCategoryColumn) : Prop :=
  displayName (source c) <> horizontalDisplayName names
  /\ displayName (source c) = verticalDisplayName names.
Definition isRotation (names : RoleNames) (c : DataViewCategoryColumn) : Prop :=
  displayName (source c) <> horizontalDisplayName names
  /\ displayName (source c) <> verticalDisplayName names
  /\ displayName (source c) = rotationDisplayName names.

#[global] Instance isHorizontal_dec names c : Decision (isHorizontal names c).
Proof. unfold isHorizontal. apply _. Defined.
#[global] Instance isVertical_dec names c : Decision (isVertical names c).
Proof. unfold isVertical. apply _. Defined.
#[global] Instance isRotation_dec names c : Decision (isRotation names c).
Proof. unfold isRotation. apply _. Defined.

(** The button opposite to button [i]: up and down, left and right. *)
Definition opposite (i : nat) : nat :=
  match i with
  | 0 => 1
  | 1 => 0
  | 2 => 3
  | 3 => 2
  | _ => i
  end%nat.

(** ** The control over its lifetime *)

Inductive Event : Type :=
  | Refresh (options : VisualUpdateOptions)
  | Move (direction : string) (s : Z).

(** The events a user can cause: refreshes, and moves by one step. *)
Definition userEvent (ev : Event) : Prop :=
  match ev with
  | Refresh _ => True
  | Move _ s => s = 1 \/ s = -1
  end.

Definition isMove (ev : Event) : Prop :=
  match ev with
  | Refresh _ => False
  | Move _ _ => True
  end.

Definition pose (this : Visual) : Z * Z * Z :=
  (lastHorizontal this, lastVertical this, lastRotation this).

(** The current position table. *)
Definition positionTable (this : Visual) : list CategoryDataPoint :=
  match viewModel this with
  | Some vm => dataPoints vm
  | None => []
  end.

(** The records of the current table that carry pose [p]. *)
Definition matchingRecords (p : Z * Z * Z) (this : Visual)
    : list CategoryDataPoint :=
  filter (fun dp => selectorMetadata (selectionId dp) = Some (poseMetadata p))
         (positionTable this).

#[global] Instance userEvent_dec (ev : Event) : Decision (userEvent ev).
Proof. destruct ev; simpl; apply _. Defined.
#[global] Instance isMove_dec (ev : Event) : Decision (isMove ev).
Proof. destruct ev; simpl; apply _. Defined.

Section WithMath.
Context {M : MathLib}.

(** The first half of [step]: [(newHorizontal, newVertical, newRotation)]. *)
Definition newPosition (direction : string) (step : Z) (this : Visual)
    : Z * Z * Z :=
  if decide (direction = "d") then
    (lastHorizontal this
       + roundScaledSin displacement (lastRotation this) * step,
     lastVertical this
       + roundScaledCos displacement (lastRotation this) * step,
     lastRotation this)
  else if decide (direction = "r") then
    let newRotation := lastRotation this + rotationStep * step in
    (lastHorizontal this, lastVertical this,
     if bool_decide (newRotation < 0) then newRotation + 360
     else Z.rem newRotation 360)
  else (lastHorizontal this, lastVertical this, lastRotation this).

Definition step (direction : string) (step : Z) (this : Visual)
    : completion Visual :=
  let target := newPosition direction step this in
  let newPositionMetadata := poseMetadata target in
  vm ← deref (viewModel this);
  match findSelectionId newPositionMetadata (dataPoints vm) with
  | Some newSelectionId =>
      mret {| visualSettings := visualSettings this;
              selectionManager := selectionManager this ++ [newSelectionId];
              viewModel := viewModel this;
              lastSelected := lastSelected this;
              lastHorizontal := target.1.1;
              lastVertical := target.1.2;
              lastRotation := target.2 |}
  | None => mret this
  end.

(** The click handler of button [i]. *)
Definition click (i : nat) (this : Visual) : completion Visual :=
  direction ← deref (buttonDirection !! i);
  s ← deref (buttonStep !! i);
  step direction s this.

Definition handle (ev : Event) (this : Visual) : completion Visual :=
  match ev with
  | Refresh options => update options this
  | Move direction s => step direction s this
  end.

(** A handler that throws has assigned nothing: the fields keep their
    values and the host goes on with the next event. *)
Definition fire (this : Visual) (ev : Event) : Visual :=
  match handle ev this with
  | Normal this' => this'
  | Throw _ => this
  end.

Definition run (evs : list Event) (this : Visual) : Visual :=
  foldl fire this evs.

(** The pose a move commits when its lookup succeeds. *)
Definition committed (this : Visual) (target : Z * Z * Z)
    (newSelectionId : ISelectionId) : Visual :=
  {| visualSettings := visualSettings this;
     selectionManager := selectionManager this ++ [newSelectionId];
     viewModel := viewModel this;
     lastSelected := lastSelected this;
     lastHorizontal := target.1.1;
     lastVertical := target.1.2;
     lastRotation := target.2 |}.

(** Whether the lookup of a move succeeds in the current table. *)
Definition commits (direction : string) (s : Z) (this : Visual) : Prop :=
  is_Some (findSelectionId (poseMetadata (newPosition direction s this))
                           (positionTable this)).

#[global] Instance commits_dec direction s this :
  Decision (commits direction s this).
Proof. unfold commits. apply _. Defined.



(** Every move of a sequence, in one direction, finds its target. *)
Fixpoint commitAll (direction : string) (steps : list Z) (this : Visual)
    : Prop :=
  match steps with
  | [] => True
  | s :: rest =>
      commits direction s this
      /\ commitAll direction rest (fire this (Move direction s))
  end.

(** The control after button [i] is pressed. *)
Definition press (this : Visual) (i : nat) : Visual :=
  match click i this with
  | Normal this' => this'
  | Throw _ => this
  end.

End WithMath.


#[global] Instance commitAll_dec `{M : MathLib} (direction : string)
    (steps : list Z) (this : Visual) : Decision (commitAll direction steps this).
Proof.
  revert this. induction steps as [|s rest IH]; intros this; simpl; apply _.
Defined.

(** ** Sample hosts

    A [Math] library given by the heading table, and the data view of a
    location table with the three category roles bound, in the order
    horizontal, vertical, rotation (columns X, Y and V of the README). *)

#[global] Instance headingMath : MathLib :=
  {| roundScaledSin := fun k r => k * headingSin r;
     roundScaledCos := fun k r => k * headingCos r |}.

Definition roleColumn (name role : string) : DataViewMetadataColumn :=
  {| displayName := name; roles := {[ role := true ]} |}.

Definition categoryColumn (name role : string) (vals : list Z)
    : DataViewCategoryColumn :=
  {| source := roleColumn name role; values := PNumber <$> vals |}.

Definition locationCategories (rows : list (Z * Z * Z))
    : list DataViewCategoryColumn :=
  [ categoryColumn "X" "horizontalCategory" ((fun row => row.1.1) <$> rows);
    categoryColumn "Y" "verticalCategory" ((fun row => row.1.2) <$> rows);
    categoryColumn "V" "rotationCategory" ((fun row => row.2) <$> rows) ].

Definition locationTable
    (objs : option (gmap string (gmap string DataViewPropertyValue)))
    (rows : list (Z * Z * Z)) : VisualUpdateOptions :=
  {| dataViews :=
       [ {| metadata :=
              {| columns := source <$> locationCategories rows; objects := objs |};
            categorical :=
              Some {| categories := Some (locationCategories rows) |} |} ] |}.

(** The record that [visualTransform] makes of row [i] of a location table. *)
Definition locationRecord (i : nat) (row : Z * Z * Z) : CategoryDataPoint :=
  {| category := numberToString row.1.1;
     selectionId :=
       {| categoryRow := Some ("X", i);
          selectorMetadata := Some (poseMetadata row) |} |}.

(** The property pane with the step increment set to [n]. *)
Definition incrementalObjects (n : Z)
    : option (gmap string (gmap string DataViewPropertyValue)) :=
  Some {[ "settings" := {[ "incremental" := PropNumber n ]} ]}.

(** A data view with the horizontal role alone: one column, one row. *)
Definition horizontalOnly : VisualUpdateOptions :=
  {| dataViews :=
       [ {| metadata :=
              {| columns := [roleColumn "X" "horizontalCategory"];
                 objects := None |};
            categorical :=
              Some {| categories :=
                        Some [categoryColumn "X" "horizontalCategory" [1]] |} |} ] |}.

(** A data view with the horizontal role alone and no row of data. *)
Definition horizontalNoRows : VisualUpdateOptions :=
  {| dataViews :=
       [ {| metadata :=
              {| columns := [roleColumn "X" "horizontalCategory"];
                 objects := None |};
            categorical :=
              Some {| categories :=
                        Some [categoryColumn "X" "horizontalCategory" []] |} |} ] |}.

(** The eight headings at the cell (1, 1). *)
Definition allHeadings : list (Z * Z * Z) :=
  (fun k => (1, 1, 45 * k)) <$> [0; 1; 2; 3; 4; 5; 6; 7].

(** Closes a goal about a sample run by evaluating it. *)
Ltac evaluated := vm_compute; solve [reflexivity | eexists; reflexivity].

(** Closes a decidable goal about sample events by deciding it. *)
Ltac decided := apply (bool_decide_unpack _); vm_compute; reflexivity.

(** Closes an equation between tuples of integers. *)
Ltac pair_lia :=
  repeat match goal with |- (_, _) = (_, _) => f_equal end; try done; lia.

(** * Properties *)

(** ** The lookup loop *)

Lemma findSelectionId_None (key : string) (dps : list CategoryDataPoint) :
  findSelectionId key dps = None <->
  forall dp, dp ∈ dps -> selectorMetadata (selectionId dp) <> Some key.
Proof.
  induction dps as [|dp0 dps IH]; simpl.
  - split; [|done]. intros _ dp Hin. inversion Hin.
  - destruct (decide (selectorMetadata (selectionId dp0) = Some key)) as [Heq|Hne].
    + split; [done|]. intros Hall. destruct (Hall dp0); [left|done].
    + rewrite IH. split.
      * intros Hall dp Hin. apply elem_of_cons in Hin as [->|Hin]; auto.
      * intros Hall dp Hin. apply Hall. by right.
Qed.

(** A successful lookup returns the identifier of the first record, in table
    order, whose measure name is the key. *)
Lemma findSelectionId_Some (key : string) (dps : list CategoryDataPoint)
    (id : ISelectionId) :
  findSelectionId key dps = Some id <->
  exists before dp after,
    dps = before ++ dp :: after
    /\ selectionId dp = id
    /\ selectorMetadata id = Some key
    /\ forall dp', dp' ∈ before -> selectorMetadata (selectionId dp') <> Some key.
Proof.
  induction dps as [|dp0 dps IH]; simpl.
  - split; [done|]. intros (before & dp & after & Heq & _). by destruct before.
  - destruct (decide (selectorMetadata (selectionId dp0) = Some key)) as [Heq|Hne].
    + split.
      * intros [= <-]. exists [], dp0, dps. repeat split; [done|].
        intros dp' Hin. inversion Hin.
      * intros (before & dp & after & Hdps & <- & Hkey & Hfirst).
        destruct before as [|b before]; simpl in Hdps; [by simplify_eq|].
        injection Hdps as <- ->. destruct (Hfirst dp0); [left|done].
    + rewrite IH. split.
      * intros (before & dp & after & -> & Hid & Hkey & Hfirst).
        exists (dp0 :: before), dp, after. repeat split; [done..|].
        intros dp' Hin. apply elem_of_cons in Hin as [->|Hin]; auto.
      * intros (before & dp & after & Hdps & Hid & Hkey & Hfirst).
        destruct before as [|b before]; simpl in Hdps.
        { injection Hdps as -> ->. by rewrite Hid, Hkey in Hne. }
        injection Hdps as <- ->.
        exists before, dp, after. repeat split; [done..|].
        intros dp' Hin. apply Hfirst. by right.
Qed.

Lemma findSelectionId_elem (key : string) (dps : list CategoryDataPoint)
    (id : ISelectionId) :
  findSelectionId key dps = Some id ->
  exists dp, dp ∈ dps /\ selectionId dp = id
             /\ selectorMetadata (selectionId dp) = Some key.
Proof.
  intros (before & dp & after & -> & <- & Hkey & _)%findSelectionId_Some.
  exists dp. split; [|done]. apply elem_of_app. right. by left.
Qed.

Lemma findSelectionId_is_Some (key : string) (dps : list CategoryDataPoint) :
  (exists dp, dp ∈ dps /\ selectorMetadata (selectionId dp) = Some key) ->
  is_Some (findSelectionId key dps).
Proof.
  intros (dp & Hin & Hkey).
  destruct (findSelectionId key dps) eqn:Hfind; [done|].
  by destruct (proj1 (findSelectionId_None key dps) Hfind dp Hin).
Qed.

(** ** The heading table in exact arithmetic *)

Lemma Math_round_nearest (x : R) (n : Z) :
  (IZR n - / 2 <= x < IZR n + / 2)%R -> Math_round x = n.
Proof.
  intros [Hlo Hhi]. unfold Math_round, Int_part.
  rewrite <- (up_tech (x + / 2) n); [lia| lra |].
  rewrite plus_IZR. lra.
Qed.

Lemma half_sqrt2_bounds : (/ 2 < 1 / sqrt 2 < 1)%R.
Proof.
  pose proof Rlt_sqrt2_0 as Hpos.
  pose proof (sqrt_sqrt 2 ltac:(lra)) as Hsq.
  assert (1 < sqrt 2 < 2)%R as [H1 H2] by (split; nra).
  split.
  - apply (Rmult_lt_reg_r (sqrt 2)); [done|]. field_simplify; [lra|lra].
  - apply (Rmult_lt_reg_r (sqrt 2)); [done|]. field_simplify; [lra|lra].
Qed.

Lemma angle_eighths (k : Z) : (IZR (45 * k) * PI / 180 = IZR k * (PI / 4))%R.
Proof. rewrite mult_IZR. field. Qed.

Lemma sin_7PI4 : sin (7 * (PI / 4)) = (-1 / sqrt 2)%R.
Proof.
  replace (7 * (PI / 4))%R with (2 * PI - PI / 4)%R by field.
  rewrite sin_minus, sin_2PI, cos_2PI, sin_PI4. field. apply sqrt2_neq_0.
Qed.

Lemma cos_7PI4 : cos (7 * (PI / 4)) = (1 / sqrt 2)%R.
Proof.
  replace (7 * (PI / 4))%R with (2 * PI - PI / 4)%R by field.
  rewrite cos_minus, sin_2PI, cos_2PI, cos_PI4. field. apply sqrt2_neq_0.
Qed.

Lemma Math_round_diagonal :
  Math_round (1 / sqrt 2) = 1 /\ Math_round (-1 / sqrt 2) = -1.
Proof.
  pose proof half_sqrt2_bounds as [Hlo Hhi].
  split; apply Math_round_nearest; simpl.
  - lra.
  - replace (-1 / sqrt 2)%R with (- (1 / sqrt 2))%R by (field; apply sqrt2_neq_0).
    lra.
Qed.

Lemma Math_round_IZR (n : Z) : Math_round (IZR n) = n.
Proof. apply Math_round_nearest. lra. Qed.

Lemma exact_heading_table (k : Z) :
  0 <= k < 8 ->
  Math_round (sinDegrees 1 (45 * k)) = headingSin (45 * k)
  /\ Math_round (cosDegrees 1 (45 * k)) = headingCos (45 * k).
Proof.
  intros Hk. unfold sinDegrees, cosDegrees.
  rewrite !Rmult_1_l, angle_eighths.
  destruct Math_round_diagonal as [Hup Hdown].
  assert (k = 0 \/ k = 1 \/ k = 2 \/ k = 3 \/ k = 4 \/ k = 5 \/ k = 6 \/ k = 7)
    as Hcases by lia.
  destruct Hcases as [->|[->|[->|[->|[->|[->|[->| ->]]]]]]]; simpl.
  - rewrite Rmult_0_l, sin_0, cos_0. split; apply Math_round_IZR.
  - rewrite Rmult_1_l, sin_PI4, cos_PI4. done.
  - replace (2 * (PI / 4))%R with (PI / 2)%R by field.
    rewrite sin_PI2, cos_PI2. split; apply Math_round_IZR.
  - rewrite sin_3PI4, cos_3PI4. done.
  - replace (4 * (PI / 4))%R with PI by field.
    rewrite sin_PI, cos_PI. split; [apply Math_round_IZR|apply (Math_round_IZR (-1))].
  - rewrite sin_5PI4, cos_5PI4. done.
  - replace (6 * (PI / 4))%R with (3 * (PI / 2))%R by field.
    rewrite sin_3PI2, cos_3PI2. split; [apply (Math_round_IZR (-1))|apply Math_round_IZR].
  - rewrite sin_7PI4, cos_7PI4. done.
Qed.

(** X19. Read in exact arithmetic, with [Math.round] the floor of [x + 1/2],
    the expressions [Math.round(1 * Math.sin(r * Math.PI / 180))] and
    [Math.round(1 * Math.cos(r * Math.PI / 180))] of [step] take at each of
    the eight headings the value of the heading table. *)
Lemma exactMath_table : HeadingTable exactMath.
Proof. intros r (k & Hk & ->). by apply exact_heading_table. Qed.

(** ** Measure names

    The measure name of a pose determines the pose: the numerals contain
    neither of the separators Y and V. *)

Lemma append_split_unique (c : ascii) (s1 s2 t1 t2 : string) :
  avoids c s1 -> avoids c s2 ->
  s1 +:+ String c t1 = s2 +:+ String c t2 -> s1 = s2 /\ t1 = t2.
Proof.
  revert s2. induction s1 as [|a s1 IH]; intros [|b s2]; simpl.
  - intros _ _ [= ->]. done.
  - intros _ [Hb _] [= <- _]. done.
  - intros [Ha _] _ [= -> _]. done.
  - intros [_ H1] [_ H2] [= -> Heq]. destruct (IH s2 H1 H2 Heq) as [-> ->]. done.
Qed.

Lemma pretty_N_go_avoids (c : ascii) (x : N) (s : string) :
  letter c -> avoids c s -> avoids c (pretty_N_go x s).
Proof.
  intros Hc. revert s. induction (N.lt_wf_0 x) as [x _ IH]; intros s Hs.
  destruct (decide (x = 0)%N) as [->|Hx]; [by rewrite pretty_N_go_0|].
  rewrite pretty_N_go_step by lia. apply IH.
  - apply N.div_lt; lia.
  - split; [|done]. unfold pretty_N_char.
    destruct Hc as [-> | ->]; by repeat case_match.
Qed.

Lemma numberToString_avoids (c : ascii) (n : Z) : letter c -> avoids c (pretty n).
Proof.
  intros Hc.
  assert (forall p : positive, avoids c (pretty (N.pos p))) as Hpos.
  { intros p. unfold pretty, pretty_N. rewrite decide_False by done.
    by apply pretty_N_go_avoids. }
  destruct n as [|p|p]; unfold pretty, pretty_Z.
  - destruct Hc as [-> | ->]; by repeat split.
  - apply Hpos.
  - split; [|apply Hpos]. destruct Hc as [-> | ->]; done.
Qed.

Lemma poseMetadata_inj (p q : Z * Z * Z) :
  poseMetadata p = poseMetadata q -> p = q.
Proof.
  destruct p as [[h v] r], q as [[h' v'] r'].
  unfold poseMetadata, positionMetadata, numberToString. intros [= Heq].
  apply append_split_unique in Heq as [Hh Heq];
    [|apply numberToString_avoids; by left..].
  apply append_split_unique in Heq as [Hv Hr];
    [|apply numberToString_avoids; by right..].
  by apply (inj pretty) in Hh, Hv, Hr; subst.
Qed.

(** ** The refresh of a location table *)

Lemma positionDataPoints_location (rows before rest : list (Z * Z * Z)) :
  rows = before ++ rest ->
  positionDataPoints
    (Some (categoryColumn "X" "horizontalCategory" ((fun row => row.1.1) <$> rows)))
    (Some (categoryColumn "Y" "verticalCategory" ((fun row => row.1.2) <$> rows)))
    (Some (categoryColumn "V" "rotationCategory" ((fun row => row.2) <$> rows)))
    (length before) (PNumber <$> ((fun row => row.1.1) <$> rest))
  = Normal (imap (fun j => locationRecord (length before + j)) rest).
Proof.
  revert before. induction rest as [|row rest IH]; intros before Hrows; [done|].
  assert (forall f : Z * Z * Z -> Z,
            (PNumber <$> (f <$> rows)) !! length before = Some (PNumber (f row)))
    as Hat.
  { intros f. rewrite !list_lookup_fmap, Hrows.
    by rewrite lookup_app_r, Nat.sub_diag by lia. }
  rewrite !fmap_cons. cbn [positionDataPoints].
  unfold positionDataPoint, valueString. cbn [deref mbind completion_bind values categoryColumn].
  rewrite !Hat. cbn [deref mbind completion_bind toString].
  specialize (IH (before ++ [row])). rewrite length_app in IH. simpl in IH.
  replace (length before + 1)%nat with (S (length before)) in IH by lia.
  rewrite IH by (by rewrite <- app_assoc).
  cbn [mbind completion_bind mret completion_ret]. f_equal.
  rewrite imap_cons. f_equal.
  - unfold locationRecord. destruct row as [[h v] r]. simpl.
    by rewrite Nat.add_0_r.
  - apply imap_ext. intros j x _. simpl. f_equal. lia.
Qed.

Lemma visualTransform_locationTable
    (objs : option (gmap string (gmap string DataViewPropertyValue)))
    (rows : list (Z * Z * Z)) :
  exists vm,
    visualTransform (locationTable objs rows) = Normal vm
    /\ dataPoints vm = imap locationRecord rows.
Proof.
  unfold visualTransform, locationTable.
  cbn [dataViews lookup list_lookup deref mbind completion_bind metadata
       categorical categories columns objects].
  set (names := scanColumns _ _ _).
  assert (names = {| horizontalDisplayName := "X"; verticalDisplayName := "Y";
                     rotationDisplayName := "V"; sortedByName := "horizontal" |})
    as -> by (by vm_compute).
  set (idx := scanCategories _ _ _ _).
  assert (idx = {| horizontalIdxInCategories := 0; verticalIdxInCategories := 1;
                   rotationIdxInCategories := 2 |}) as -> by done.
  cbn [horizontalIdxInCategories verticalIdxInCategories rotationIdxInCategories].
  change (categoryAt (locationCategories rows) 0)
    with (Some (categoryColumn "X" "horizontalCategory"
                  ((fun row => row.1.1) <$> rows))).
  change (categoryAt (locationCategories rows) 1)
    with (Some (categoryColumn "Y" "verticalCategory"
                  ((fun row => row.1.2) <$> rows))).
  change (categoryAt (locationCategories rows) 2)
    with (Some (categoryColumn "V" "rotationCategory"
                  ((fun row => row.2) <$> rows))).
  cbn [locationCategories lookup list_lookup deref mbind completion_bind values
       categoryColumn].
  pose proof (positionDataPoints_location rows [] rows eq_refl) as Hdps.
  cbn [length] in Hdps. rewrite Hdps.
  eexists. split; reflexivity.
Qed.

(** On a location table, a record carries a pose exactly when the pose is one
    of the rows. *)
Lemma locationTable_carries (rows : list (Z * Z * Z)) (p : Z * Z * Z) :
  (exists dp, dp ∈ imap locationRecord rows
     /\ selectorMetadata (selectionId dp) = Some (poseMetadata p))
  <-> p ∈ rows.
Proof.
  split.
  - intros (dp & Hin & Hkey).
    apply list_elem_of_lookup in Hin as [i Hi].
    rewrite list_lookup_imap in Hi.
    destruct (rows !! i) as [row|] eqn:Hrow; simplify_eq/=.
    apply poseMetadata_inj in Hkey as ->.
    apply list_elem_of_lookup. by exists i.
  - intros [i Hi]%list_elem_of_lookup. exists (locationRecord i p). split; [|done].
    apply list_elem_of_lookup. exists i. by rewrite list_lookup_imap, Hi.
Qed.

Section Properties.
Context {M : MathLib}.

Lemma step_unfold (direction : string) (s : Z) (this : Visual) (vm : ViewModel) :
  viewModel this = Some vm ->
  step direction s this =
    match findSelectionId (poseMetadata (newPosition direction s this))
                          (dataPoints vm) with
    | Some id => Normal (committed this (newPosition direction s this) id)
    | None => Normal this
    end.
Proof.
  intros Hvm. unfold step, committed. rewrite Hvm. simpl.
  by destruct (findSelectionId _ _).
Qed.

Lemma step_undefined (direction : string) (s : Z) (this : Visual) :
  viewModel this = None -> step direction s this = Throw TypeError.
Proof. intros Hvm. unfold step. by rewrite Hvm. Qed.

Lemma pose_committed (this : Visual) (target : Z * Z * Z) (id : ISelectionId) :
  pose (committed this target id) = target.
Proof. by destruct target as [[h v] r]. Qed.

Lemma lastRotation_committed (this : Visual) (target : Z * Z * Z)
    (id : ISelectionId) :
  lastRotation (committed this target id) = target.2.
Proof. done. Qed.

(** The four buttons make one-step moves, forward and backward along the
    heading ("d") and turns to the left and to the right ("r"). *)
Lemma click_Move (i : nat) (this : Visual) :
  (i < 4)%nat ->
  exists direction s,
    click i this = handle (Move direction s) this
    /\ userEvent (Move direction s)
    /\ (direction = "d" \/ direction = "r").
Proof.
  intros Hi.
  destruct i as [|[|[|[|i]]]]; [| | | |lia]; unfold click; simpl.
  - exists "d", 1. auto.
  - exists "d", (-1). auto.
  - exists "r", (-1). auto.
  - exists "r", 1. auto.
Qed.

(** What a move event leaves behind, by cases on its lookup. *)
Lemma fire_Move (direction : string) (s : Z) (this : Visual) :
  (~ commits direction s this /\ fire this (Move direction s) = this)
  \/ (exists id,
        findSelectionId (poseMetadata (newPosition direction s this))
                        (positionTable this) = Some id
        /\ fire this (Move direction s)
           = committed this (newPosition direction s this) id).
Proof.
  unfold fire, commits, positionTable; simpl.
  destruct (viewModel this) as [vm|] eqn:Hvm.
  - rewrite (step_unfold _ _ _ vm Hvm).
    destruct (findSelectionId _ _) as [id|] eqn:Hfind.
    + right. by exists id.
    + left. split; [|done]. by intros [? ?].
  - rewrite step_undefined by done. left. split; [|done]. by intros [? ?].
Qed.

Lemma fire_Move_cases (direction : string) (s : Z) (this : Visual) :
  (~ commits direction s this /\ fire this (Move direction s) = this)
  \/ (commits direction s this
      /\ exists id,
           fire this (Move direction s)
           = committed this (newPosition direction s this) id).
Proof.
  destruct (fire_Move direction s this) as [?|(id & Hfind & Heq)]; [by left|].
  right. split; [|by exists id]. unfold commits. by rewrite Hfind.
Qed.

Lemma fire_Refresh_pose (options : VisualUpdateOptions) (this : Visual) :
  pose (fire this (Refresh options)) = pose this
  /\ selectionManager (fire this (Refresh options)) = selectionManager this.
Proof.
  unfold fire; simpl. unfold update.
  by destruct (visualTransform options).
Qed.

Lemma run_snoc (evs : list Event) (ev : Event) (this : Visual) :
  run (evs ++ [ev]) this = fire (run evs this) ev.
Proof. unfold run. by rewrite foldl_snoc. Qed.


End Properties.

(** ** One call of [step] *)

Section StepSpec.
Context {M : MathLib}.

(** C1. A translate move ([direction = "d"]) targets the pose
    (h + round(sin r°)·step, v + round(cos r°)·step, r).  The rotation the
    control holds after the call is [r], whether the lookup succeeds or not.
    At heading 90 the target is (h + step, v, 90).  The rounded sine and
    cosine are those of a [Math] library that is right on the headings. *)
Theorem translate_target (this : Visual) (vm : ViewModel) (s : Z) :
  HeadingTable M ->
  viewModel this = Some vm ->
  newPosition "d" s this
    = (lastHorizontal this + roundScaledSin 1 (lastRotation this) * s,
       lastVertical this + roundScaledCos 1 (lastRotation this) * s,
       lastRotation this)
  /\ (exists this',
        step "d" s this = Normal this'
        /\ lastRotation this' = lastRotation this)
  /\ (lastRotation this = 90 ->
      newPosition "d" s this
        = (lastHorizontal this + s, lastVertical this, 90)).
Proof.
  intros Htable Hvm. split; [done|]. split.
  - rewrite (step_unfold _ _ _ vm Hvm).
    destruct (findSelectionId _ _) as [id|]; eauto.
  - intros Hr. unfold newPosition, displacement; simpl. rewrite Hr.
    destruct (Htable 90) as [-> ->].
    { exists 2. lia. }
    simpl. repeat f_equal; lia.
Qed.

(** C2. A rotate move ([direction = "r"]) by one step keeps the grid
    indices and targets the rotation (r + 45·step) mod 360, which lies in
    [0, 360).  From 315 a step of +1 wraps to 0. *)
Theorem rotate_target (this : Visual) (s : Z) :
  0 <= lastRotation this ->
  s = 1 \/ s = -1 ->
  newPosition "r" s this
    = (lastHorizontal this, lastVertical this,
       (lastRotation this + 45 * s) mod 360)
  /\ 0 <= (lastRotation this + 45 * s) mod 360 < 360.
Proof.
  intros Hr Hs. split; [|by apply Z.mod_pos_bound].
  unfold newPosition, rotationStep; simpl. f_equal.
  case_bool_decide as Hneg.
  - apply (Z.mod_unique _ _ (-1)); lia.
  - rewrite Z.rem_mod_nonneg; lia.
Qed.

(** C3. When no record of the table carries the target pose, [step] returns
    normally and leaves the control as it was: the same pose, and no
    identifier handed to the selection manager. *)
Theorem absent_target_is_noop (direction : string) (s : Z) (this : Visual)
    (vm : ViewModel) :
  viewModel this = Some vm ->
  (forall dp, dp ∈ dataPoints vm ->
     selectorMetadata (selectionId dp)
       <> Some (poseMetadata (newPosition direction s this))) ->
  step direction s this = Normal this.
Proof.
  intros Hvm Habsent. rewrite (step_unfold _ _ _ vm Hvm).
  by apply findSelectionId_None in Habsent as ->.
Qed.

(** C4. When some record of the table carries the target pose, [step]
    commits the target pose and hands exactly one identifier to the
    selection manager: that of a record carrying the target pose (the first
    one in table order). *)
Theorem found_target_commits (direction : string) (s : Z) (this : Visual)
    (vm : ViewModel) :
  viewModel this = Some vm ->
  (exists dp, dp ∈ dataPoints vm
     /\ selectorMetadata (selectionId dp)
          = Some (poseMetadata (newPosition direction s this))) ->
  exists dp this',
    dp ∈ dataPoints vm
    /\ selectorMetadata (selectionId dp)
         = Some (poseMetadata (newPosition direction s this))
    /\ step direction s this = Normal this'
    /\ pose this' = newPosition direction s this
    /\ selectionManager this' = selectionManager this ++ [selectionId dp]
    /\ viewModel this' = viewModel this.
Proof.
  intros Hvm [id Hfind]%findSelectionId_is_Some.
  destruct (findSelectionId_elem _ _ _ Hfind) as (dp & Hin & <- & Hkey).
  exists dp, (committed this (newPosition direction s this) (selectionId dp)).
  rewrite (step_unfold _ _ _ vm Hvm), Hfind.
  repeat split; [done..|apply pose_committed].
Qed.

(** C10. With a direction other than "d" and "r", the target of [step] is
    the current pose, for every step.  The pose is the same after the call;
    yet when a record of the table carries the current pose, the identifier
    of such a record is handed to the selection manager once more, and when
    none does, nothing changes. *)
Theorem other_direction_reselects (direction : string) (s : Z) (this : Visual)
    (vm : ViewModel) :
  direction <> "d" ->
  direction <> "r" ->
  viewModel this = Some vm ->
  newPosition direction s this = pose this
  /\ exists this',
       step direction s this = Normal this'
       /\ pose this' = pose this
       /\ ((exists dp, dp ∈ dataPoints vm
              /\ selectorMetadata (selectionId dp)
                   = Some (poseMetadata (pose this))) ->
           exists dp, dp ∈ dataPoints vm
              /\ selectorMetadata (selectionId dp)
                   = Some (poseMetadata (pose this))
              /\ selectionManager this'
                   = selectionManager this ++ [selectionId dp])
       /\ ((forall dp, dp ∈ dataPoints vm ->
              selectorMetadata (selectionId dp)
                <> Some (poseMetadata (pose this))) ->
           this' = this).
Proof.
  intros Hd Hr Hvm.
  assert (newPosition direction s this = pose this) as Htarget.
  { unfold newPosition. by rewrite !decide_False. }
  split; [done|]. rewrite (step_unfold _ _ _ vm Hvm), Htarget.
  destruct (findSelectionId _ _) as [id|] eqn:Hfind.
  - eexists. split; [done|]. split; [apply pose_committed|]. split.
    + intros _.
      destruct (findSelectionId_elem _ _ _ Hfind) as (dp & Hin & <- & Hkey).
      by exists dp.
    + intros Habsent. apply findSelectionId_None in Habsent. congruence.
  - exists this. split; [done|]. split; [done|]. split; [|done].
    intros Hsome%findSelectionId_is_Some. rewrite Hfind in Hsome.
    by destruct Hsome.
Qed.

End StepSpec.

(** ** The control over its lifetime *)

Section Lifetime.
Context {M : MathLib}.

Lemma heading_range (r : Z) : heading r <-> 0 <= r < 360 /\ r mod 45 = 0.
Proof.
  split.
  - intros (k & Hk & ->). split; [lia|].
    rewrite Z.mul_comm. apply Z_mod_mult.
  - intros [Hr Hm]. exists (r / 45).
    pose proof (Z.div_mod r 45 ltac:(lia)). lia.
Qed.

Lemma newPosition_heading (direction : string) (s : Z) (this : Visual) :
  heading (lastRotation this) ->
  s = 1 \/ s = -1 ->
  heading (newPosition direction s this).2.
Proof.
  intros Hh Hs. unfold newPosition.
  destruct (decide (direction = "d")); [done|].
  destruct (decide (direction = "r")); [|done].
  simpl. destruct Hh as (k & Hk & Hr). rewrite Hr. unfold rotationStep.
  case_bool_decide as Hneg.
  - exists 7. lia.
  - assert (k + s = 8 \/ 0 <= k + s < 8) as [Hwrap|Hin] by lia.
    + exists 0. split; [lia|].
      replace (45 * k + 45 * s) with (1 * 360) by lia.
      apply Z.rem_mul; lia.
    + exists (k + s). split; [done|].
      rewrite Z.rem_small; lia.
Qed.

Lemma fire_heading (this : Visual) (ev : Event) :
  heading (lastRotation this) ->
  userEvent ev ->
  heading (lastRotation (fire this ev)).
Proof.
  intros Hh Hev. destruct ev as [options|direction s].
  - pose proof (fire_Refresh_pose options this) as [Hpose _].
    unfold pose in Hpose. by injection Hpose as _ _ ->.
  - destruct (fire_Move direction s this) as [[_ ->]|(id & _ & ->)]; [done|].
    simpl. by apply newPosition_heading.
Qed.

Lemma run_heading (evs : list Event) (this : Visual) :
  heading (lastRotation this) ->
  Forall userEvent evs ->
  heading (lastRotation (run evs this)).
Proof.
  intros Hh Hevs. revert this Hh.
  induction Hevs as [|ev evs Hev _ IH]; intros this Hh; [done|].
  apply IH. by apply fire_heading.
Qed.

Lemma rotate_target_eq (this : Visual) (s : Z) :
  0 <= lastRotation this ->
  s = 1 \/ s = -1 ->
  (newPosition "r" s this).2 = (lastRotation this + 45 * s) mod 360
  /\ (newPosition "r" s this).1 = (lastHorizontal this, lastVertical this).
Proof.
  intros Hr Hs. unfold newPosition, rotationStep; simpl. split; [|done].
  case_bool_decide as Hneg.
  - apply (Z.mod_unique _ _ (-1)); lia.
  - rewrite Z.rem_mod_nonneg; lia.
Qed.

Lemma rotation_is_heading_range (evs : list Event) :
  Forall userEvent evs ->
  0 <= lastRotation (run evs Visual_constructor) < 360.
Proof.
  intros Hevs. apply heading_range, run_heading; [|done].
  exists 0. simpl. lia.
Qed.

(** C5. Whatever refreshes and one-step moves the control has gone through
    since its construction, its rotation is a multiple of 45 in [0, 360). *)
Theorem rotation_is_heading (evs : list Event) :
  Forall userEvent evs ->
  0 <= lastRotation (run evs Visual_constructor) < 360
  /\ (45 | lastRotation (run evs Visual_constructor)).
Proof.
  intros Hevs.
  destruct (run_heading evs Visual_constructor) as (k & Hk & ->); [|done|].
  - exists 0. simpl. lia.
  - split; [lia|]. exists k. lia.
Qed.

(** C6, as the code has it. A rotate move by +1 followed by a rotate move by
    -1 brings the rotation back when both lookups succeed or both fail.
    When only the first succeeds the rotation ends 45 degrees further, and
    when only the second succeeds it ends 45 degrees back. *)
Theorem rotate_there_and_back (evs : list Event) :
  Forall userEvent evs ->
  let this := run evs Visual_constructor in
  let there := fire this (Move "r" 1) in
  let back := fire there (Move "r" (-1)) in
  ((commits "r" 1 this <-> commits "r" (-1) there) ->
     lastRotation back = lastRotation this)
  /\ (commits "r" 1 this -> ~ commits "r" (-1) there ->
     lastRotation back = (lastRotation this + 45) mod 360)
  /\ (~ commits "r" 1 this -> commits "r" (-1) there ->
     lastRotation back = (lastRotation this - 45) mod 360).
Proof.
  intros Hevs this there back.
  pose proof (rotation_is_heading_range evs Hevs) as Hr. fold this in Hr.
  assert ((~ commits "r" 1 this /\ lastRotation there = lastRotation this)
          \/ (commits "r" 1 this
              /\ lastRotation there = (lastRotation this + 45) mod 360))
    as Hthere.
  { subst there.
    destruct (fire_Move_cases "r" 1 this) as [[Hn ->]|[Hc (id & ->)]];
      [by left|right].
    split; [done|]. rewrite lastRotation_committed.
    by destruct (rotate_target_eq this 1) as [-> _]; [lia|left|]. }
  assert (0 <= lastRotation there) as Hpos.
  { destruct Hthere as [[_ ->]|[_ ->]]; [lia|].
    by apply Z.mod_pos_bound. }
  assert ((~ commits "r" (-1) there /\ lastRotation back = lastRotation there)
          \/ (commits "r" (-1) there
              /\ lastRotation back = (lastRotation there - 45) mod 360))
    as Hback.
  { subst back.
    destruct (fire_Move_cases "r" (-1) there) as [[Hn ->]|[Hc (id & ->)]];
      [by left|right].
    split; [done|]. rewrite lastRotation_committed.
    by destruct (rotate_target_eq there (-1)) as [-> _]; [lia|right|]. }
  destruct Hthere as [[Hc1 Hrot1]|[Hc1 Hrot1]],
           Hback as [[Hc2 Hrot2]|[Hc2 Hrot2]];
    rewrite Hrot2, Hrot1; repeat split; try tauto.
  intros _. rewrite Zminus_mod_idemp_l.
  replace (lastRotation this + 45 - 45) with (lastRotation this) by lia.
  apply Z.mod_small; lia.
Qed.

End Lifetime.

(** ** The committed pose and the table *)

Section PoseAndTable.
Context {M : MathLib}.







End PoseAndTable.

(** ** The configuration and the refresh *)

Section Refresh.
Context {M : MathLib}.

Lemma bind_Normal {A B : Type} (c : completion A) (k : A -> completion B)
    (b : B) :
  c ≫= k = Normal b -> exists a, c = Normal a /\ k a = Normal b.
Proof. destruct c as [a|e]; [by exists a|done]. Qed.



Lemma positionDataPoints_undefined
    (horizontalCategory verticalCategory rotationCategory : option DataViewCategoryColumn)
    (i : nat) (v : PrimitiveValue) (vals : list PrimitiveValue) :
  horizontalCategory = None \/ verticalCategory = None \/ rotationCategory = None ->
  positionDataPoints horizontalCategory verticalCategory rotationCategory
    i (v :: vals) = Throw TypeError.
Proof.
  intros Hnone.
  assert (positionDataPoint horizontalCategory verticalCategory
            rotationCategory i v = Throw TypeError) as Hthrow.
  { unfold positionDataPoint.
    destruct (valueString horizontalCategory i) as [x|[]] eqn:Hx; [|done].
    destruct (valueString verticalCategory i) as [y|[]] eqn:Hy; [|done].
    destruct (valueString rotationCategory i) as [z|[]] eqn:Hz; [|done].
    destruct Hnone as [->|[->| ->]]; discriminate. }
  simpl. by rewrite Hthrow.
Qed.

(** With some role unbound and at least one row of data, the refresh throws. *)
Lemma visualTransform_unbound_role (options : VisualUpdateOptions)
    (dv : DataView) (cat : DataViewCategorical)
    (cats : list DataViewCategoryColumn) (first : DataViewCategoryColumn)
    (v : PrimitiveValue) (vals : list PrimitiveValue) :
  dataViews options !! 0%nat = Some dv ->
  categorical dv = Some cat ->
  categories cat = Some cats ->
  cats !! 0%nat = Some first ->
  values first = v :: vals ->
  let names :=
    scanColumns 0 (columns (metadata dv))
      {| horizontalDisplayName := EmptyString; verticalDisplayName := EmptyString;
         rotationDisplayName := EmptyString; sortedByName := EmptyString |} in
  let idx :=
    scanCategories names 0 cats
      {| horizontalIdxInCategories := -1; verticalIdxInCategories := -1;
         rotationIdxInCategories := -1 |} in
  horizontalIdxInCategories idx = -1
  \/ verticalIdxInCategories idx = -1
  \/ rotationIdxInCategories idx = -1 ->
  visualTransform options = Throw TypeError.
Proof.
  intros Hdv Hcat Hcats Hfirst Hvals names idx Hunbound.
  unfold visualTransform. rewrite Hdv. cbn [deref mbind completion_bind].
  rewrite Hcat. cbn [deref mbind completion_bind].
  rewrite Hcats. cbn [deref mbind completion_bind].
  rewrite Hfirst. cbn [deref mbind completion_bind].
  rewrite Hvals, positionDataPoints_undefined; [done|].
  fold names. fold idx. unfold categoryAt.
  destruct Hunbound as [->|[->| ->]]; auto.
Qed.

(** On an empty table every move returns with the control as it was. *)
Lemma empty_table_noop (direction : string) (s : Z) (this : Visual)
    (vm : ViewModel) :
  viewModel this = Some vm ->
  dataPoints vm = [] ->
  step direction s this = Normal this.
Proof.
  intros Hvm Hempty. rewrite (step_unfold _ _ _ vm Hvm). by rewrite Hempty.
Qed.

(** A refresh with no row of data installs an empty table, whatever roles
    are bound. *)
Lemma visualTransform_no_rows (options : VisualUpdateOptions)
    (dv : DataView) (cat : DataViewCategorical)
    (cats : list DataViewCategoryColumn) (first : DataViewCategoryColumn)
    (vm : ViewModel) :
  dataViews options !! 0%nat = Some dv ->
  categorical dv = Some cat ->
  categories cat = Some cats ->
  cats !! 0%nat = Some first ->
  values first = [] ->
  visualTransform options = Normal vm ->
  dataPoints vm = [].
Proof.
  intros Hdv Hcat Hcats Hfirst Hvals. unfold visualTransform.
  rewrite Hdv. cbn [deref mbind completion_bind].
  rewrite Hcat. cbn [deref mbind completion_bind].
  rewrite Hcats. cbn [deref mbind completion_bind].
  rewrite Hfirst. cbn [deref mbind completion_bind].
  rewrite Hvals. cbn [positionDataPoints mret completion_ret mbind completion_bind].
  intros Hvm. repeat (apply bind_Normal in Hvm as (? & _ & Hvm)).
  by injection Hvm as <-.
Qed.

(** X18. After a refresh on a location table (the three roles bound, integer
    values) the pad moves exactly when the target of the move is one of the
    rows: then the target becomes the pose, and otherwise nothing changes. *)
Lemma locationTable_move
    (objs : option (gmap string (gmap string DataViewPropertyValue)))
    (rows : list (Z * Z * Z)) (this : Visual) (direction : string) (s : Z) :
  let refreshed := fire this (Refresh (locationTable objs rows)) in
  (newPosition direction s refreshed ∈ rows ->
     pose (fire refreshed (Move direction s)) = newPosition direction s refreshed)
  /\ (newPosition direction s refreshed ∉ rows ->
     fire refreshed (Move direction s) = refreshed).
Proof.
  intros refreshed.
  destruct (visualTransform_locationTable objs rows) as (vm & Hvm & Hdps).
  assert (positionTable refreshed = imap locationRecord rows) as Htable.
  { subst refreshed. unfold fire, handle, update. rewrite Hvm.
    unfold positionTable. simpl. exact Hdps. }
  destruct (fire_Move_cases direction s refreshed) as [[Hno ->]|[Hyes (id & ->)]].
  - split; [|done]. intros Hin. destruct Hno. unfold commits.
    apply findSelectionId_is_Some. rewrite Htable.
    by apply locationTable_carries.
  - split; [intros _; apply pose_committed|].
    intros Hout. destruct Hout. destruct Hyes as [id' Hfind].
    apply findSelectionId_elem in Hfind as (dp & Hin & _ & Hkey).
    rewrite Htable in Hin. apply locationTable_carries. by exists dp.
Qed.

(** C9, where the code departs from it. With the horizontal role bound alone
    and one row of data, [visualTransform] throws on
    [verticalCategory.values]; [update] throws with it and assigns no view
    model. *)
Theorem missing_role_throws :
  visualTransform horizontalOnly = Throw TypeError
  /\ update horizontalOnly Visual_constructor = Throw TypeError
  /\ viewModel (fire Visual_constructor (Refresh horizontalOnly)) = None.
Proof. by vm_compute. Qed.

End Refresh.

(** ** The properties at work on sample tables *)

Lemma headingMath_table : HeadingTable headingMath.
Proof.
  intros r (k & Hk & ->). simpl.
  assert (k = 0 \/ k = 1 \/ k = 2 \/ k = 3 \/ k = 4 \/ k = 5 \/ k = 6 \/ k = 7)
    as Hcases by lia.
  by repeat (destruct Hcases as [->|Hcases]); [..|subst k].
Qed.

(** After two turns to the right on a table that has the headings 0, 45 and
    90 at (1, 1), a forward move targets (2, 1, 90). *)
Lemma translate_target_witness :
  let this :=
    run [Refresh (locationTable None [(1, 1, 0); (1, 1, 45); (1, 1, 90)]);
         Move "r" 1; Move "r" 1] Visual_constructor in
  HeadingTable headingMath
  /\ is_Some (viewModel this)
  /\ lastRotation this = 90
  /\ newPosition "d" 1 this = (2, 1, 90).
Proof.
  intros this.
  assert (is_Some (viewModel this)) as Hvm by evaluated.
  split; [exact headingMath_table|]. split; [exact Hvm|].
  assert (lastRotation this = 90) as Hr by (by vm_compute).
  split; [exact Hr|]. destruct Hvm as [vm Hvm].
  destruct (translate_target this vm 1 headingMath_table Hvm) as (_ & _ & Heast).
  exact (Heast Hr).
Defined.

(** From 315 a turn to the right wraps to 0. *)
Lemma rotate_target_witness :
  let this :=
    {| visualSettings := None; selectionManager := []; viewModel := None;
       lastSelected := 0; lastHorizontal := 1; lastVertical := 1;
       lastRotation := 315 |} in
  0 <= lastRotation this
  /\ (1 = 1 \/ 1 = -1)
  /\ newPosition "r" 1 this = (1, 1, 0).
Proof.
  intros this.
  assert (0 <= lastRotation this) as Hr by (simpl; lia).
  assert (1 = 1 \/ 1 = -1) as Hs by (left; reflexivity).
  split; [exact Hr|]. split; [exact Hs|].
  exact (proj1 (rotate_target this 1 Hr Hs)).
Defined.

(** From 0 a turn to the right targets 45, a turn to the left 315. *)
Example rotate_from_zero :
  newPosition "r" 1 Visual_constructor = (1, 1, 45)
  /\ newPosition "r" (-1) Visual_constructor = (1, 1, 315).
Proof. by vm_compute. Qed.

(** On the table {(1,1,0)} a forward move from (1, 1, 0) targets (1, 2, 0),
    which is absent: the pose stays (1, 1, 0). *)
Lemma absent_target_is_noop_witness :
  let this := run [Refresh (locationTable None [(1, 1, 0)])] Visual_constructor in
  is_Some (viewModel this)
  /\ findSelectionId (poseMetadata (newPosition "d" 1 this)) (positionTable this)
     = None
  /\ newPosition "d" 1 this = (1, 2, 0)
  /\ step "d" 1 this = Normal this
  /\ pose this = (1, 1, 0).
Proof.
  intros this.
  assert (is_Some (viewModel this)) as Hvm by evaluated.
  assert (findSelectionId (poseMetadata (newPosition "d" 1 this))
            (positionTable this) = None) as Habsent by (by vm_compute).
  split; [exact Hvm|]. split; [exact Habsent|]. split; [by vm_compute|].
  split; [|by vm_compute]. destruct Hvm as [vm Hvm].
  apply (absent_target_is_noop "d" 1 this vm Hvm).
  apply findSelectionId_None. unfold positionTable in Habsent.
  by rewrite Hvm in Habsent.
Defined.

(** On the table {(1,1,0), (1,2,0)} a forward move from (1, 1, 0) finds
    (1, 2, 0): the pose becomes (1, 2, 0) and the record's identifier is
    selected. *)
Lemma found_target_commits_witness :
  let this :=
    run [Refresh (locationTable None [(1, 1, 0); (1, 2, 0)])] Visual_constructor in
  is_Some (viewModel this)
  /\ is_Some (findSelectionId (poseMetadata (newPosition "d" 1 this))
                (positionTable this))
  /\ exists this',
       step "d" 1 this = Normal this'
       /\ pose this' = (1, 2, 0)
       /\ length (selectionManager this') = 1%nat.
Proof.
  intros this.
  assert (is_Some (viewModel this)) as Hvm by evaluated.
  assert (is_Some (findSelectionId (poseMetadata (newPosition "d" 1 this))
            (positionTable this))) as Hfound by evaluated.
  split; [exact Hvm|]. split; [exact Hfound|].
  destruct Hvm as [vm Hvm]. destruct Hfound as [id Hfound].
  unfold positionTable in Hfound. rewrite Hvm in Hfound.
  destruct (findSelectionId_elem _ _ _ Hfound) as (dp0 & Hin0 & _ & Hkey0).
  destruct (found_target_commits "d" 1 this vm Hvm
              (ex_intro _ dp0 (conj Hin0 Hkey0)))
    as (dp & this' & _ & _ & Hstep & Hpose & Hsel & _).
  exists this'. split; [exact Hstep|]. split.
  - rewrite Hpose. by vm_compute.
  - rewrite Hsel. by vm_compute.
Defined.

(** A direction that is neither "d" nor "r", on the same table: the pose
    stays (1, 1, 0) and its record is selected again. *)
Lemma other_direction_reselects_witness :
  let this :=
    run [Refresh (locationTable None [(1, 1, 0); (1, 2, 0)])] Visual_constructor in
  "x" <> "d" /\ "x" <> "r" /\ is_Some (viewModel this)
  /\ newPosition "x" 5 this = (1, 1, 0)
  /\ exists this',
       step "x" 5 this = Normal this'
       /\ pose this' = (1, 1, 0)
       /\ length (selectionManager this') = 1%nat.
Proof.
  intros this.
  assert ("x" <> "d") as Hd by done.
  assert ("x" <> "r") as Hr by done.
  assert (is_Some (viewModel this)) as Hvm by evaluated.
  split; [exact Hd|]. split; [exact Hr|]. split; [exact Hvm|].
  destruct Hvm as [vm Hvm].
  destruct (other_direction_reselects "x" 5 this vm Hd Hr Hvm)
    as (Htarget & this' & Hstep & Hpose & Hsome & _).
  split; [rewrite Htarget; by vm_compute|].
  exists this'. split; [exact Hstep|]. split; [rewrite Hpose; by vm_compute|].
  vm_compute in Hstep. by injection Hstep as <-.
Defined.

(** Two turns to the right and a forward move: the rotation is 90. *)
Lemma rotation_is_heading_witness :
  let evs :=
    [Refresh (locationTable None [(1, 1, 0); (1, 1, 45); (1, 1, 90); (2, 1, 90)]);
     Move "r" 1; Move "r" 1; Move "d" 1] in
  Forall userEvent evs
  /\ lastRotation (run evs Visual_constructor) = 90
  /\ 0 <= lastRotation (run evs Visual_constructor) < 360
  /\ (45 | lastRotation (run evs Visual_constructor)).
Proof.
  intros evs.
  assert (Forall userEvent evs) as Hevs by decided.
  split; [exact Hevs|]. split; [by vm_compute|].
  exact (rotation_is_heading evs Hevs).
Defined.

(** C6 fails on the table {(1,1,0), (1,1,315)}: from (1, 1, 0) the turn to
    the right targets (1, 1, 45), which is absent, and the turn to the left
    then commits (1, 1, 315). *)
Lemma rotate_there_and_back_fails :
  let this :=
    run [Refresh (locationTable None [(1, 1, 0); (1, 1, 315)])] Visual_constructor in
  let back := fire (fire this (Move "r" 1)) (Move "r" (-1)) in
  lastRotation this = 0
  /\ lastRotation back = 315
  /\ lastRotation back <> lastRotation this.
Proof. by vm_compute. Qed.

(** On the table {(1,1,0), (1,1,45)} both turns commit and the rotation is
    0 again. *)
Lemma rotate_there_and_back_witness :
  let evs := [Refresh (locationTable None [(1, 1, 0); (1, 1, 45)])] in
  let this := run evs Visual_constructor in
  let there := fire this (Move "r" 1) in
  let back := fire there (Move "r" (-1)) in
  Forall userEvent evs
  /\ commits "r" 1 this
  /\ commits "r" (-1) there
  /\ lastRotation there = 45
  /\ lastRotation back = lastRotation this.
Proof.
  intros evs this there back.
  assert (Forall userEvent evs) as Hevs by decided.
  assert (commits "r" 1 this) as Hc1 by evaluated.
  assert (commits "r" (-1) there) as Hc2 by evaluated.
  split; [exact Hevs|]. split; [exact Hc1|]. split; [exact Hc2|].
  split; [by vm_compute|].
  exact (proj1 (rotate_there_and_back evs Hevs)
               (conj (fun _ => Hc2) (fun _ => Hc1))).
Defined.


(** Nor is the record unique: a table may list a position twice. *)
Example pose_with_two_records :
  let this :=
    run [Refresh (locationTable None [(1, 1, 0); (1, 2, 0); (1, 2, 0)]);
         Move "d" 1] Visual_constructor in
  pose this = (1, 2, 0) /\ length (matchingRecords (pose this) this) = 2%nat.
Proof. by vm_compute. Qed.



(** After a refresh that throws, the table of the refresh before it is still
    in place and moves on it still commit. *)
Example stale_table_after_failed_refresh :
  let this :=
    run [Refresh (locationTable None [(1, 1, 0); (1, 2, 0)]);
         Refresh horizontalOnly; Move "d" 1] Visual_constructor in
  length (positionTable this) = 2%nat /\ pose this = (1, 2, 0).
Proof. by vm_compute. Qed.

(** Before the first refresh there is no view model and [step] throws. *)
Example step_before_refresh :
  step "d" 1 Visual_constructor = Throw TypeError.
Proof. reflexivity. Qed.


(** * Further properties *)

(** ** Resolving the roles *)

Lemma scanColumns_sortedBy (i : nat) (cols : list DataViewMetadataColumn)
    (acc : RoleNames) :
  (0 < i)%nat -> sortedByName (scanColumns i cols acc) = sortedByName acc.
Proof.
  revert i acc. induction cols as [|c cols IH]; intros i acc Hi; [done|].
  simpl. rewrite IH by lia. unfold scanColumn.
  repeat case_match; simpl; try done; lia.
Qed.

Lemma scanCategories_snoc (names : RoleNames) (i : nat)
    (cats : list DataViewCategoryColumn) (c : DataViewCategoryColumn)
    (acc : RoleIndices) :
  scanCategories names i (cats ++ [c]) acc
  = scanCategory names (i + length cats) c (scanCategories names i cats acc).
Proof.
  revert i acc. induction cats as [|c0 cats IH]; intros i acc; simpl.
  - by rewrite Nat.add_0_r.
  - rewrite IH. f_equal. lia.
Qed.

Lemma isLastIndex_nil (P : DataViewCategoryColumn -> Prop) :
  isLastIndex P [] (-1).
Proof. left. split; [done|]. intros c Hc. inversion Hc. Qed.

Lemma isLastIndex_snoc (P : DataViewCategoryColumn -> Prop)
    `{!forall c, Decision (P c)}
    (cats : list DataViewCategoryColumn) (c : DataViewCategoryColumn) (idx : Z) :
  isLastIndex P cats idx ->
  isLastIndex P (cats ++ [c])
    (if decide (P c) then Z.of_nat (length cats) else idx).
Proof.
  intros Hlast. destruct (decide (P c)) as [Hc|Hc].
  - right. exists (length cats), c. split; [done|].
    split; [by rewrite lookup_app_r, Nat.sub_diag by lia|]. split; [done|].
    intros j' c' Hj' Hlook. apply lookup_lt_Some in Hlook.
    rewrite length_app in Hlook. simpl in Hlook. lia.
  - destruct Hlast as [[-> Hnone]|(j & c0 & -> & Hj & Hc0 & Hlater)].
    + left. split; [done|]. intros c' [Hin|Hin]%elem_of_app; [by apply Hnone|].
      by apply list_elem_of_singleton in Hin as ->.
    + right. exists j, c0. split; [done|].
      split; [by apply lookup_app_l_Some|]. split; [done|].
      intros j' c' Hj' Hlook. apply lookup_app_Some in Hlook as [Hlook|[_ Hlook]].
      * by apply (Hlater j').
      * destruct (j' - length cats)%nat; simplify_eq/=. done.
Qed.

Lemma scanCategories_last (names : RoleNames)
    (cats : list DataViewCategoryColumn) :
  let idx :=
    scanCategories names 0 cats
      {| horizontalIdxInCategories := -1; verticalIdxInCategories := -1;
         rotationIdxInCategories := -1 |} in
  isLastIndex (isHorizontal names) cats (horizontalIdxInCategories idx)
  /\ isLastIndex (isVertical names) cats (verticalIdxInCategories idx)
  /\ isLastIndex (isRotation names) cats (rotationIdxInCategories idx).
Proof.
  induction cats as [|c cats IH] using rev_ind.
  - simpl. repeat split; apply isLastIndex_nil.
  - cbv zeta in *. rewrite scanCategories_snoc. simpl.
    destruct IH as (Hh & Hv & Hr).
    apply (isLastIndex_snoc _ cats c) in Hh, Hv, Hr.
    unfold scanCategory, isHorizontal, isVertical, isRotation in *.
    destruct (decide (displayName (source c) = horizontalDisplayName names));
      [|destruct (decide (displayName (source c) = verticalDisplayName names));
        [|destruct (decide (displayName (source c) = rotationDisplayName names))]];
      simpl;
      repeat (match goal with
              | H : context [decide ?P] |- _ =>
                  first [rewrite (decide_True (P:=P)) in H by tauto
                        |rewrite (decide_False (P:=P)) in H by tauto]
              end);
      done.
Qed.

Lemma isLastIndex_categoryAt (P : DataViewCategoryColumn -> Prop)
    (cats : list DataViewCategoryColumn) (idx : Z) :
  isLastIndex P cats idx ->
  (idx = -1 /\ categoryAt cats idx = None)
  \/ (idx > -1 /\ exists c, categoryAt cats idx = Some c /\ P c /\ c ∈ cats).
Proof.
  unfold categoryAt.
  intros [[-> _]|(j & c & -> & Hj & Hc & _)]; [by left|right].
  split; [lia|]. exists c. rewrite bool_decide_true, Nat2Z.id by lia.
  split; [done|]. split; [done|]. by eapply list_elem_of_lookup_2.
Qed.

(** ** What a refresh that returns has done *)

Lemma visualTransform_Normal (options : VisualUpdateOptions) (vm : ViewModel) :
  visualTransform options = Normal vm ->
  exists dv cat cats first dps hdps vdps,
    dataViews options !! 0%nat = Some dv
    /\ categorical dv = Some cat
    /\ categories cat = Some cats
    /\ cats !! 0%nat = Some first
    /\ positionDataPoints
         (categoryAt cats (horizontalIdxInCategories (roleIndices dv cats)))
         (categoryAt cats (verticalIdxInCategories (roleIndices dv cats)))
         (categoryAt cats (rotationIdxInCategories (roleIndices dv cats)))
         0 (values first) = Normal dps
    /\ guardedAxisDataPoints (horizontalIdxInCategories (roleIndices dv cats))
         (categoryAt cats (horizontalIdxInCategories (roleIndices dv cats)))
       = Normal hdps
    /\ guardedAxisDataPoints (verticalIdxInCategories (roleIndices dv cats))
         (categoryAt cats (verticalIdxInCategories (roleIndices dv cats)))
       = Normal vdps
    /\ horizontalDataPoints vm = hdps
    /\ verticalDataPoints vm = vdps
    /\ dataPoints vm = dps
    /\ numberOfAxis vm
       = countAxis (horizontalIdxInCategories (roleIndices dv cats))
         + countAxis (verticalIdxInCategories (roleIndices dv cats))
         + countAxis (rotationIdxInCategories (roleIndices dv cats))
    /\ sortedBy vm = sortedByName (roleNames dv).
Proof.
  unfold visualTransform. intros Hvm.
  destruct (dataViews options !! 0%nat) as [dv|] eqn:Hdv; [|done].
  cbn [deref mbind completion_bind] in Hvm.
  destruct (categorical dv) as [cat|] eqn:Hcat; [|done].
  cbn [deref mbind completion_bind] in Hvm.
  destruct (categories cat) as [cats|] eqn:Hcats; [|done].
  cbn [deref mbind completion_bind] in Hvm.
  destruct (cats !! 0%nat) as [first|] eqn:Hfirst; [|done].
  cbn [deref mbind completion_bind] in Hvm.
  fold (roleNames dv) in Hvm. fold (roleIndices dv cats) in Hvm.
  apply bind_Normal in Hvm as (dps & Hdps & Hvm).
  apply bind_Normal in Hvm as (hdps & Hhdps & Hvm).
  apply bind_Normal in Hvm as (vdps & Hvdps & Hvm).
  injection Hvm as <-.
  by exists dv, cat, cats, first, dps, hdps, vdps.
Qed.

Lemma valueString_Normal (c : option DataViewCategoryColumn) (i : nat)
    (x : string) :
  valueString c i = Normal x <->
  exists col, c = Some col /\ rowString col i = Some x.
Proof.
  unfold valueString, rowString. split.
  - intros Hv. destruct c as [col|]; simpl in Hv; [|discriminate].
    exists col. split; [done|].
    destruct (values col !! i) as [[n|str|]|]; simpl in Hv; try discriminate;
      by injection Hv as <-.
  - intros (col & -> & Hrow). simpl.
    by destruct (values col !! i) as [[n|str|]|]; simplify_eq/=.
Qed.

Lemma positionDataPoints_Normal
    (h v r : option DataViewCategoryColumn) (i : nat)
    (vals : list PrimitiveValue) (dps : list CategoryDataPoint) :
  positionDataPoints h v r i vals = Normal dps ->
  length dps = length vals
  /\ forall (j : nat) (val : PrimitiveValue),
       vals !! j = Some val ->
       exists hc vc rc x y z,
         h = Some hc /\ v = Some vc /\ r = Some rc
         /\ rowString hc (i + j) = Some x
         /\ rowString vc (i + j) = Some y
         /\ rowString rc (i + j) = Some z
         /\ dps !! j
            = Some {| category := concatEmpty (Some val);
                      selectionId :=
                        {| categoryRow := Some (displayName (source hc), (i + j)%nat);
                           selectorMetadata := Some (positionMetadata x y z) |} |}.
Proof.
  revert i dps. induction vals as [|val0 vals IH]; intros i dps; simpl.
  - intros [= <-]. split; [done|]. intros j val Hj. inversion Hj.
  - intros Hdps.
    apply bind_Normal in Hdps as (dp & Hdp & Hdps).
    apply bind_Normal in Hdps as (rest & Hrest & Hdps).
    injection Hdps as <-.
    apply IH in Hrest as [Hlen Hrows].
    split; [simpl; by rewrite Hlen|].
    intros [|j] val Hj; simpl in Hj.
    + injection Hj as ->. unfold positionDataPoint in Hdp.
      apply bind_Normal in Hdp as (x & Hx & Hdp).
      apply bind_Normal in Hdp as (y & Hy & Hdp).
      apply bind_Normal in Hdp as (z & Hz & Hdp).
      apply valueString_Normal in Hx as (hc & -> & Hx).
      apply valueString_Normal in Hy as (vc & -> & Hy).
      apply valueString_Normal in Hz as (rc & -> & Hz).
      simpl in Hdp. injection Hdp as <-.
      exists hc, vc, rc, x, y, z. rewrite Nat.add_0_r. by repeat split.
    + destruct (Hrows j val Hj) as
        (hc & vc & rc & x & y & z & ? & ? & ? & Hx & Hy & Hz & Hdp').
      exists hc, vc, rc, x, y, z.
      replace (i + S j)%nat with (S i + j)%nat by lia. by repeat split.
Qed.

Lemma positionDataPoints_rows
    (hc vc rc : DataViewCategoryColumn) (i : nat) (vals : list PrimitiveValue) :
  (forall j, (j < length vals)%nat ->
     is_Some (rowString hc (i + j)) /\ is_Some (rowString vc (i + j))
     /\ is_Some (rowString rc (i + j))) ->
  exists dps, positionDataPoints (Some hc) (Some vc) (Some rc) i vals = Normal dps.
Proof.
  revert i. induction vals as [|val vals IH]; intros i Hrows; [by eexists|].
  destruct (Hrows 0%nat) as ([x Hx] & [y Hy] & [z Hz]); [simpl; lia|].
  rewrite Nat.add_0_r in Hx, Hy, Hz.
  destruct (IH (S i)) as [dps Hdps].
  { intros j Hj. replace (S i + j)%nat with (i + S j)%nat by lia.
    apply Hrows. simpl. lia. }
  simpl. unfold positionDataPoint.
  rewrite (proj2 (valueString_Normal (Some hc) i x)) by eauto.
  rewrite (proj2 (valueString_Normal (Some vc) i y)) by eauto.
  rewrite (proj2 (valueString_Normal (Some rc) i z)) by eauto.
  simpl. rewrite Hdps. by eexists.
Qed.

Lemma guardedAxisDataPoints_last (P : DataViewCategoryColumn -> Prop)
    (cats : list DataViewCategoryColumn) (idx : Z) :
  isLastIndex P cats idx ->
  exists dps, guardedAxisDataPoints idx (categoryAt cats idx) = Normal dps
    /\ forall dp, dp ∈ dps -> selectorMetadata (selectionId dp) = None.
Proof.
  intros Hlast. unfold guardedAxisDataPoints.
  destruct (isLastIndex_categoryAt P cats idx Hlast)
    as [[-> _]|(Hidx & c & -> & _)].
  - exists []. split; [done|]. intros dp Hdp. inversion Hdp.
  - rewrite bool_decide_true by done. simpl. eexists. split; [done|].
    intros dp (i & Hi)%list_elem_of_lookup. unfold axisDataPoints in Hi.
    rewrite list_lookup_imap in Hi.
    by destruct (values c !! i); simplify_eq/=.
Qed.

(** X1. A refresh that returns has made one position record per row of the
    first category, in row order.  For every such row all three roles are
    resolved to categories that have a value other than null at the row; the
    record carries the string of the first category's value, the row of the
    horizontal category, and the measure name built from the three strings. *)
Theorem refresh_records_rows (options : VisualUpdateOptions) (vm : ViewModel) :
  visualTransform options = Normal vm ->
  exists dv cat cats first,
    dataViews options !! 0%nat = Some dv
    /\ categorical dv = Some cat
    /\ categories cat = Some cats
    /\ cats !! 0%nat = Some first
    /\ length (dataPoints vm) = length (values first)
    /\ forall (i : nat) (val : PrimitiveValue),
         values first !! i = Some val ->
         exists hc vc rc x y z,
           categoryAt cats (horizontalIdxInCategories (roleIndices dv cats)) = Some hc
           /\ categoryAt cats (verticalIdxInCategories (roleIndices dv cats)) = Some vc
           /\ categoryAt cats (rotationIdxInCategories (roleIndices dv cats)) = Some rc
           /\ rowString hc i = Some x
           /\ rowString vc i = Some y
           /\ rowString rc i = Some z
           /\ dataPoints vm !! i
              = Some {| category := concatEmpty (Some val);
                        selectionId :=
                          {| categoryRow := Some (displayName (source hc), i);
                             selectorMetadata := Some (positionMetadata x y z) |} |}.
Proof.
  intros (dv & cat & cats & first & dps & hdps & vdps & Hdv & Hcat & Hcats
          & Hfirst & Hdps & _ & _ & _ & _ & -> & _)%visualTransform_Normal.
  exists dv, cat, cats, first. repeat (split; [done|]).
  apply positionDataPoints_Normal in Hdps as [Hlen Hrows].
  split; [done|]. intros i val Hval.
  destruct (Hrows i val Hval) as (hc & vc & rc & x & y & z & Hrest).
  by exists hc, vc, rc, x, y, z.
Qed.

Lemma visualTransform_returns (options : VisualUpdateOptions)
    (dv : DataView) (cat : DataViewCategorical)
    (cats : list DataViewCategoryColumn) (first : DataViewCategoryColumn) :
  dataViews options !! 0%nat = Some dv ->
  categorical dv = Some cat ->
  categories cat = Some cats ->
  cats !! 0%nat = Some first ->
  (forall i : nat, (i < length (values first))%nat ->
     exists hc vc rc,
       categoryAt cats (horizontalIdxInCategories (roleIndices dv cats)) = Some hc
       /\ categoryAt cats (verticalIdxInCategories (roleIndices dv cats)) = Some vc
       /\ categoryAt cats (rotationIdxInCategories (roleIndices dv cats)) = Some rc
       /\ is_Some (rowString hc i)
       /\ is_Some (rowString vc i)
       /\ is_Some (rowString rc i)) ->
  exists vm, visualTransform options = Normal vm.
Proof.
  intros Hdv Hcat Hcats Hfirst Hrows.
  unfold visualTransform. rewrite Hdv. cbn [deref mbind completion_bind].
  rewrite Hcat. cbn [deref mbind completion_bind].
  rewrite Hcats. cbn [deref mbind completion_bind].
  rewrite Hfirst. cbn [deref mbind completion_bind].
  fold (roleNames dv). fold (roleIndices dv cats).
  destruct (scanCategories_last (roleNames dv) cats) as (Hh & Hv & _).
  fold (roleIndices dv cats) in Hh, Hv.
  destruct (guardedAxisDataPoints_last _ _ _ Hh) as (hdps & -> & _).
  destruct (guardedAxisDataPoints_last _ _ _ Hv) as (vdps & -> & _).
  assert (exists dps,
            positionDataPoints
              (categoryAt cats (horizontalIdxInCategories (roleIndices dv cats)))
              (categoryAt cats (verticalIdxInCategories (roleIndices dv cats)))
              (categoryAt cats (rotationIdxInCategories (roleIndices dv cats)))
              0 (values first) = Normal dps) as [dps ->].
  { destruct (values first) as [|val vals] eqn:Hvals; [by eexists|].
    destruct (Hrows 0%nat) as (hc & vc & rc & Hhc & Hvc & Hrc & _);
      [simpl; lia|].
    rewrite Hhc, Hvc, Hrc. apply positionDataPoints_rows.
    intros j Hj. destruct (Hrows j Hj) as (hc' & vc' & rc' & Hhc' & Hvc' & Hrc' & Hstr).
    by simplify_eq. }
  by eexists.
Qed.

(** X2. A refresh returns exactly when the data view is there with its
    categories, there is a first category, and for every row of it the three
    roles are resolved to categories holding a value other than null at the
    row.  In every other case it throws. *)
Theorem refresh_returns_iff (options : VisualUpdateOptions) :
  (exists vm, visualTransform options = Normal vm)
  <-> exists dv cat cats first,
        dataViews options !! 0%nat = Some dv
        /\ categorical dv = Some cat
        /\ categories cat = Some cats
        /\ cats !! 0%nat = Some first
        /\ forall i : nat, (i < length (values first))%nat ->
             exists hc vc rc,
               categoryAt cats (horizontalIdxInCategories (roleIndices dv cats)) = Some hc
               /\ categoryAt cats (verticalIdxInCategories (roleIndices dv cats)) = Some vc
               /\ categoryAt cats (rotationIdxInCategories (roleIndices dv cats)) = Some rc
               /\ is_Some (rowString hc i)
               /\ is_Some (rowString vc i)
               /\ is_Some (rowString rc i).
Proof.
  split.
  - intros [vm (dv & cat & cats & first & dps & hdps & vdps & Hdv & Hcat & Hcats
               & Hfirst & Hdps & _)%visualTransform_Normal].
    exists dv, cat, cats, first. repeat (split; [done|]).
    apply positionDataPoints_Normal in Hdps as [_ Hrows].
    intros i [val Hval]%lookup_lt_is_Some_2.
    destruct (Hrows i val Hval)
      as (hc & vc & rc & x & y & z & -> & -> & -> & Hx & Hy & Hz & _).
    exists hc, vc, rc. simpl in *. rewrite Hx, Hy, Hz. by repeat split.
  - intros (dv & cat & cats & first & Hdv & Hcat & Hcats & Hfirst & Hrows).
    by eapply visualTransform_returns.
Qed.

(** X3. A refresh on a data view whose first category has no row returns,
    whatever roles are bound, and installs an empty table: from then on every
    move leaves the control as it is. *)
Theorem refresh_without_rows `{M : MathLib} (options : VisualUpdateOptions)
    (dv : DataView) (cat : DataViewCategorical)
    (cats : list DataViewCategoryColumn) (first : DataViewCategoryColumn)
    (this : Visual) (direction : string) (s : Z) :
  dataViews options !! 0%nat = Some dv ->
  categorical dv = Some cat ->
  categories cat = Some cats ->
  cats !! 0%nat = Some first ->
  values first = [] ->
  exists vm,
    visualTransform options = Normal vm
    /\ dataPoints vm = []
    /\ viewModel (fire this (Refresh options)) = Some vm
    /\ step direction s (fire this (Refresh options))
       = Normal (fire this (Refresh options)).
Proof.
  intros Hdv Hcat Hcats Hfirst Hvals.
  destruct (visualTransform options) as [vm|e] eqn:Hvm.
  - exists vm. split; [done|].
    assert (dataPoints vm = []) as Hempty
      by (by eapply visualTransform_no_rows).
    split; [done|].
    assert (viewModel (fire this (Refresh options)) = Some vm) as Hview.
    { unfold fire, handle, update. by rewrite Hvm. }
    split; [done|]. by apply (empty_table_noop _ _ _ vm).
  - destruct (visualTransform_returns options dv cat cats first) as [vm Hvm'];
      [done..| |congruence].
    rewrite Hvals. simpl. lia.
Qed.

(** X4. The number of axes that a refresh reports is the number of resolved
    roles, between 0 and 3, and it is 3 whenever the table it installs has a
    record. *)
Theorem numberOfAxis_counts_roles (options : VisualUpdateOptions)
    (vm : ViewModel) :
  visualTransform options = Normal vm ->
  0 <= numberOfAxis vm <= 3
  /\ (dataPoints vm <> [] -> numberOfAxis vm = 3).
Proof.
  intros (dv & cat & cats & first & dps & hdps & vdps & Hdv & Hcat & Hcats
          & Hfirst & Hdps & _ & _ & _ & _ & -> & -> & _)%visualTransform_Normal.
  split.
  - unfold countAxis. repeat case_bool_decide; lia.
  - intros Hrecords. apply positionDataPoints_Normal in Hdps as [Hlen Hrows].
    destruct (values first) as [|val vals];
      [by destruct dps|].
    destruct (Hrows 0%nat val eq_refl)
      as (hc & vc & rc & x & y & z & Hh & Hv & Hr & _).
    assert (forall idx c, categoryAt cats idx = Some c -> countAxis idx = 1)
      as Hcount.
    { intros idx c. unfold categoryAt, countAxis.
      by case_bool_decide. }
    by rewrite (Hcount _ _ Hh), (Hcount _ _ Hv), (Hcount _ _ Hr).
Qed.

Lemma scanColumns_folds (i : nat) (cols : list DataViewMetadataColumn)
    (acc : RoleNames) :
  horizontalDisplayName (scanColumns i cols acc)
  = lastDisplayName (fun c => hasOwnProperty c "horizontalCategory")
      (horizontalDisplayName acc) cols
  /\ verticalDisplayName (scanColumns i cols acc)
     = lastDisplayName
         (fun c => negb (hasOwnProperty c "horizontalCategory")
                   && hasOwnProperty c "verticalCategory")
         (verticalDisplayName acc) cols
  /\ rotationDisplayName (scanColumns i cols acc)
     = lastDisplayName
         (fun c => negb (hasOwnProperty c "horizontalCategory")
                   && negb (hasOwnProperty c "verticalCategory")
                   && hasOwnProperty c "rotationCategory")
         (rotationDisplayName acc) cols.
Proof.
  revert i acc. induction cols as [|c cols IH]; intros i acc; [done|].
  simpl. destruct (IH (S i) (scanColumn i c acc)) as (-> & -> & ->).
  unfold scanColumn.
  by destruct (hasOwnProperty c "horizontalCategory"),
             (hasOwnProperty c "verticalCategory"),
             (hasOwnProperty c "rotationCategory").
Qed.

(** X5. The display name of each role is that of the last metadata column
    holding the role, a column counting for the first only of the roles
    horizontal, vertical, rotation that it holds; a role no column holds has
    the empty name.  The sort key is decided by the first column alone. *)
Theorem role_names_from_columns (dv : DataView) :
  horizontalDisplayName (roleNames dv)
  = lastDisplayName (fun c => hasOwnProperty c "horizontalCategory")
      EmptyString (columns (metadata dv))
  /\ verticalDisplayName (roleNames dv)
     = lastDisplayName
         (fun c => negb (hasOwnProperty c "horizontalCategory")
                   && hasOwnProperty c "verticalCategory")
         EmptyString (columns (metadata dv))
  /\ rotationDisplayName (roleNames dv)
     = lastDisplayName
         (fun c => negb (hasOwnProperty c "horizontalCategory")
                   && negb (hasOwnProperty c "verticalCategory")
                   && hasOwnProperty c "rotationCategory")
         EmptyString (columns (metadata dv))
  /\ sortedByName (roleNames dv)
     = match columns (metadata dv) with
       | [] => EmptyString
       | c :: _ =>
           if hasOwnProperty c "horizontalCategory" then "horizontal"
           else if hasOwnProperty c "verticalCategory" then "vertical"
           else EmptyString
       end.
Proof.
  unfold roleNames.
  destruct (scanColumns_folds 0 (columns (metadata dv))
              {| horizontalDisplayName := EmptyString;
                 verticalDisplayName := EmptyString;
                 rotationDisplayName := EmptyString;
                 sortedByName := EmptyString |}) as (Hh & Hv & Hr).
  repeat (split; [done|]).
  destruct (columns (metadata dv)) as [|c cols]; [done|].
  simpl. rewrite scanColumns_sortedBy by lia. unfold scanColumn.
  by destruct (hasOwnProperty c "horizontalCategory"),
             (hasOwnProperty c "verticalCategory"),
             (hasOwnProperty c "rotationCategory").
Qed.

(** X6. Each role is resolved to the last category whose source has the
    role's display name, and to none ([-1]) when no category has it.  A
    category whose name is that of several roles counts for the first only of
    horizontal, vertical, rotation. *)
Theorem roles_bind_by_display_name (dv : DataView)
    (cats : list DataViewCategoryColumn) :
  isLastIndex (isHorizontal (roleNames dv)) cats
    (horizontalIdxInCategories (roleIndices dv cats))
  /\ isLastIndex (isVertical (roleNames dv)) cats
       (verticalIdxInCategories (roleIndices dv cats))
  /\ isLastIndex (isRotation (roleNames dv)) cats
       (rotationIdxInCategories (roleIndices dv cats))
  /\ (forall c,
        categoryAt cats (horizontalIdxInCategories (roleIndices dv cats)) = Some c ->
        c ∈ cats /\ displayName (source c) = horizontalDisplayName (roleNames dv))
  /\ (forall c,
        categoryAt cats (verticalIdxInCategories (roleIndices dv cats)) = Some c ->
        c ∈ cats /\ displayName (source c) = verticalDisplayName (roleNames dv))
  /\ (forall c,
        categoryAt cats (rotationIdxInCategories (roleIndices dv cats)) = Some c ->
        c ∈ cats /\ displayName (source c) = rotationDisplayName (roleNames dv)).
Proof.
  destruct (scanCategories_last (roleNames dv) cats) as (Hh & Hv & Hr).
  fold (roleIndices dv cats) in Hh, Hv, Hr.
  repeat (split; [done|]).
  assert (forall P idx c,
            isLastIndex P cats idx -> categoryAt cats idx = Some c ->
            c ∈ cats /\ P c) as Hat.
  { intros P idx c Hlast Hc.
    destruct (isLastIndex_categoryAt P cats idx Hlast)
      as [[_ Hnone]|(_ & c' & Hc' & HP & Hin)]; by simplify_eq. }
  split; [|split]; intros c Hc.
  - by destruct (Hat _ _ _ Hh Hc).
  - destruct (Hat _ _ _ Hv Hc) as [Hin [_ Hname]]. done.
  - destruct (Hat _ _ _ Hr Hc) as [Hin (_ & _ & Hname)]. done.
Qed.

(** ** Sequences of moves *)

Section Moves.
Context {M : MathLib}.

Lemma run_cons (ev : Event) (evs : list Event) (this : Visual) :
  run (ev :: evs) this = run evs (fire this ev).
Proof. done. Qed.

Lemma newPosition_translate (s : Z) (this : Visual) :
  newPosition "d" s this
  = (lastHorizontal this + roundScaledSin 1 (lastRotation this) * s,
     lastVertical this + roundScaledCos 1 (lastRotation this) * s,
     lastRotation this).
Proof. done. Qed.

Lemma newPosition_rotate (s : Z) (this : Visual) :
  0 <= lastRotation this ->
  s = 1 \/ s = -1 ->
  newPosition "r" s this
  = (lastHorizontal this, lastVertical this,
     (lastRotation this + 45 * s) mod 360).
Proof.
  intros Hr Hs. destruct (rotate_target_eq this s Hr Hs) as [Hrot Hgrid].
  destruct (newPosition "r" s this) as [[h v] r]. simpl in *. congruence.
Qed.

Lemma fire_Move_committed (direction : string) (s : Z) (this : Visual) :
  commits direction s this ->
  exists id,
    fire this (Move direction s)
    = committed this (newPosition direction s this) id.
Proof.
  intros Hc. by destruct (fire_Move_cases direction s this) as [[Hn _]|[_ Hid]].
Qed.

(** X7. A sequence of translate moves that all find their target adds up:
    the pad ends displaced from where it started by the rounded sine and
    cosine of its heading times the sum of the steps, its heading unchanged.
    In particular a step forward and a step back bring it back. *)
Theorem translates_add_up (steps : list Z) (this : Visual) :
  commitAll "d" steps this ->
  pose (run (Move "d" <$> steps) this)
  = (lastHorizontal this
       + roundScaledSin 1 (lastRotation this) * sumSteps steps,
     lastVertical this
       + roundScaledCos 1 (lastRotation this) * sumSteps steps,
     lastRotation this).
Proof.
  revert this. induction steps as [|s steps IH]; intros this Hall.
  - unfold pose, sumSteps. cbn [fmap list_fmap run foldl foldr]. pair_lia.
  - destruct Hall as [Hc Hall].
    destruct (fire_Move_committed "d" s this Hc) as [id Hfire].
    rewrite newPosition_translate in Hfire.
    rewrite fmap_cons, run_cons, (IH _ Hall), Hfire.
    unfold sumSteps. cbn [committed lastHorizontal lastVertical lastRotation
                          fst snd foldr].
    pair_lia.
Qed.

(** X8. A sequence of one-step turns that all find their target adds up
    modulo 360: the rotation ends at (r + 45 times the sum of the steps) mod
    360 and the grid indices are unchanged.  Eight turns in one sense bring
    the rotation back. *)
Theorem turns_add_up (steps : list Z) (this : Visual) :
  0 <= lastRotation this < 360 ->
  Forall (fun s => s = 1 \/ s = -1) steps ->
  commitAll "r" steps this ->
  pose (run (Move "r" <$> steps) this)
  = (lastHorizontal this, lastVertical this,
     (lastRotation this + 45 * sumSteps steps) mod 360).
Proof.
  intros Hr Hsteps. revert this Hr.
  induction Hsteps as [|s steps Hs _ IH]; intros this Hr Hall.
  - unfold pose, sumSteps. cbn [fmap list_fmap run foldl foldr].
    rewrite Z.mul_0_r, Z.add_0_r, Z.mod_small; done.
  - destruct Hall as [Hc Hall].
    destruct (fire_Move_committed "r" s this Hc) as [id Hfire].
    rewrite fmap_cons, run_cons.
    rewrite newPosition_rotate in Hfire by (done || lia).
    rewrite IH; [|rewrite Hfire; simpl; by apply Z.mod_pos_bound|done].
    rewrite Hfire. unfold sumSteps.
    cbn [committed lastHorizontal lastVertical lastRotation fst snd foldr].
    rewrite Zplus_mod_idemp_l. do 2 f_equal. lia.
Qed.

Lemma press_fire (this : Visual) (i : nat) :
  (i < 4)%nat ->
  exists direction s,
    buttonDirection !! i = Some direction
    /\ buttonStep !! i = Some s
    /\ press this i = fire this (Move direction s).
Proof.
  intros Hi. destruct i as [|[|[|[|i]]]]; [..|lia];
    eexists _, _; (split; [done|]); (split; [done|]); reflexivity.
Qed.

Lemma length_fire_Move (direction : string) (s : Z) (this : Visual) :
  (commits direction s this
   /\ length (selectionManager (fire this (Move direction s)))
      = S (length (selectionManager this)))
  \/ (~ commits direction s this /\ fire this (Move direction s) = this).
Proof.
  destruct (fire_Move_cases direction s this) as [?|[Hc (id & ->)]]; [by right|].
  left. split; [done|]. simpl. rewrite length_app. simpl. lia.
Qed.

Lemma there_and_back (direction : string) (s : Z) (this : Visual) :
  (direction = "d" \/ direction = "r" /\ 0 <= lastRotation this < 360) ->
  s = 1 \/ s = -1 ->
  commits direction s this ->
  commits direction (- s) (fire this (Move direction s)) ->
  pose (fire (fire this (Move direction s)) (Move direction (- s))) = pose this.
Proof.
  intros Hdir Hs Hc1 Hc2.
  destruct (fire_Move_committed direction s this Hc1) as [id1 Hfire1].
  destruct (fire_Move_committed _ _ _ Hc2) as [id2 ->].
  rewrite pose_committed.
  destruct Hdir as [->|[-> Hr]].
  - rewrite Hfire1, !newPosition_translate.
    cbn [committed lastHorizontal lastVertical lastRotation fst snd].
    unfold pose. pair_lia.
  - rewrite (newPosition_rotate s) in Hfire1 by (done || lia).
    rewrite Hfire1, newPosition_rotate;
      [|simpl; by apply Z.mod_pos_bound|lia].
    cbn [committed lastHorizontal lastVertical lastRotation fst snd].
    rewrite Zplus_mod_idemp_l.
    replace (lastRotation this + 45 * s + 45 * - s) with (lastRotation this)
      by lia.
    by rewrite Z.mod_small.
Qed.

(** X9. Pressing a button and then the opposite one (up and down, left and
    right, in either order) brings the pad back to its pose whenever both
    presses selected something. *)
Theorem opposite_buttons_cancel (this : Visual) (i : nat) :
  (i < 4)%nat ->
  0 <= lastRotation this < 360 ->
  length (selectionManager (press (press this i) (opposite i)))
  = (length (selectionManager this) + 2)%nat ->
  pose (press (press this i) (opposite i)) = pose this.
Proof.
  intros Hi Hr.
  assert (exists direction s,
            (direction = "d" \/ direction = "r") /\ (s = 1 \/ s = -1)
            /\ forall st, press st i = fire st (Move direction s)
            /\ press st (opposite i) = fire st (Move direction (- s)))
    as (direction & s & Hdir & Hs & Hpress).
  { destruct i as [|[|[|[|i]]]]; [..|lia].
    - exists "d", 1. by repeat split; auto.
    - exists "d", (-1). by repeat split; auto.
    - exists "r", (-1). by repeat split; auto.
    - exists "r", 1. by repeat split; auto. }
  rewrite (proj2 (Hpress (press this i))), (proj1 (Hpress this)).
  intros Hlen.
  destruct (length_fire_Move direction s this) as [[Hc1 Hl1]|[_ Heq1]];
    destruct (length_fire_Move direction (- s) (fire this (Move direction s)))
      as [[Hc2 Hl2]|[_ Heq2]];
    try (rewrite ?Heq2, ?Heq1 in *; lia).
  apply there_and_back; [|done..]. destruct Hdir as [->| ->]; auto.
Qed.

End Moves.

(** ** The lookup, the selection and the view model *)

(** X10. The measure name of a pose determines the pose: two poses have the
    same measure name only if they are the same, so a lookup never takes one
    position for another. *)
Theorem measure_name_determines_pose (p q : Z * Z * Z) :
  poseMetadata p = poseMetadata q <-> p = q.
Proof.
  split; [apply poseMetadata_inj|]. by intros ->.
Qed.

Section Selection.
Context {M : MathLib}.

(** X11. When several records of the table carry the target pose, [step]
    selects the identifier of the first of them in table order. *)
Theorem step_selects_first_match (direction : string) (s : Z) (this : Visual)
    (vm : ViewModel) (before after : list CategoryDataPoint)
    (dp : CategoryDataPoint) :
  viewModel this = Some vm ->
  dataPoints vm = before ++ dp :: after ->
  selectorMetadata (selectionId dp)
    = Some (poseMetadata (newPosition direction s this)) ->
  (forall dp', dp' ∈ before ->
     selectorMetadata (selectionId dp')
       <> Some (poseMetadata (newPosition direction s this))) ->
  step direction s this
  = Normal (committed this (newPosition direction s this) (selectionId dp)).
Proof.
  intros Hvm Htable Hkey Hfirst. rewrite (step_unfold _ _ _ vm Hvm).
  assert (findSelectionId (poseMetadata (newPosition direction s this))
            (dataPoints vm) = Some (selectionId dp)) as ->; [|done].
  apply findSelectionId_Some. by exists before, dp, after.
Qed.

Lemma fire_selection (this : Visual) (ev : Event) :
  selectionManager (fire this ev) = selectionManager this
  \/ (isMove ev
      /\ exists id,
           is_Some (selectorMetadata id)
           /\ selectionManager (fire this ev) = selectionManager this ++ [id]).
Proof.
  destruct ev as [options|direction s].
  - left. apply fire_Refresh_pose.
  - destruct (fire_Move direction s this) as [[_ ->]|(id & Hfind & ->)];
      [by left|right].
    split; [done|]. exists id. split; [|done].
    destruct (findSelectionId_elem _ _ _ Hfind) as (dp & _ & <- & ->). by eexists.
Qed.

(** X12. The selection manager is only ever given more identifiers: over any
    events the earlier selections stay in place, at most one is added per
    move and none by a refresh, and every identifier added carries a measure
    name (it is a position record, never one of the axis data points). *)
Theorem selection_log_grows (evs : list Event) (this : Visual) :
  exists added,
    selectionManager (run evs this) = selectionManager this ++ added
    /\ (length added <= length (filter isMove evs))%nat
    /\ Forall (fun id => is_Some (selectorMetadata id)) added.
Proof.
  revert this. induction evs as [|ev evs IH]; intros this.
  - exists []. by rewrite app_nil_r.
  - rewrite run_cons. destruct (IH (fire this ev)) as (added & -> & Hlen & Hall).
    rewrite filter_cons.
    destruct (fire_selection this ev) as [->|(Hmove & id & Hid & ->)].
    + exists added. split; [done|]. split; [|done].
      destruct (decide (isMove ev)); simpl; lia.
    + exists (id :: added). rewrite <- app_assoc. split; [done|].
      rewrite decide_True by done. split; [simpl; lia|by constructor].
Qed.

Lemma fire_viewModel (this : Visual) (ev : Event) :
  is_Some (viewModel (fire this ev))
  <-> is_Some (viewModel this)
      \/ exists options vm,
           ev = Refresh options /\ visualTransform options = Normal vm.
Proof.
  destruct ev as [options|direction s].
  - unfold fire, handle, update.
    destruct (visualTransform options) as [vm|e] eqn:Hvm; simpl.
    + split; [|by eexists]. intros _. right. by exists options, vm.
    + split; [by left|]. intros [?|(o & vm & [= <-] & Hvm')]; [done|congruence].
  - split.
    + intros Hsome. left.
      by destruct (fire_Move direction s this) as [[_ Heq]|(id & _ & Heq)];
        rewrite Heq in Hsome.
    + intros [Hsome|(o & vm & [=] & _)].
      by destruct (fire_Move direction s this) as [[_ ->]|(id & _ & ->)].
Qed.

(** X13. A move returns exactly when some refresh before it has returned:
    until then [step] throws on the missing view model, and from then on it
    never throws, whatever refreshes fail later. *)
Theorem step_returns_iff_refreshed (evs : list Event) (direction : string)
    (s : Z) :
  (exists this', step direction s (run evs Visual_constructor) = Normal this')
  <-> Exists (fun ev => exists options vm,
                ev = Refresh options /\ visualTransform options = Normal vm)
             evs.
Proof.
  assert (forall this,
            is_Some (viewModel (run evs this))
            <-> is_Some (viewModel this)
                \/ Exists (fun ev => exists options vm,
                             ev = Refresh options
                             /\ visualTransform options = Normal vm) evs)
    as Hview.
  { induction evs as [|ev evs IH]; intros this.
    - simpl. rewrite Exists_nil. tauto.
    - rewrite run_cons, IH, fire_viewModel, Exists_cons. tauto. }
  specialize (Hview Visual_constructor).
  assert (~ is_Some (viewModel Visual_constructor)) as Hinit
    by (by intros [? ?]).
  transitivity (is_Some (viewModel (run evs Visual_constructor))); [|tauto].
  destruct (viewModel (run evs Visual_constructor)) as [vm|] eqn:Hvm.
  - rewrite (step_unfold _ _ _ vm Hvm). split; [by eexists|]. intros _.
    destruct (findSelectionId _ _); by eexists.
  - rewrite step_undefined by done. split; [by intros [? ?]|by intros [? ?]].
Qed.

Lemma fire_Move_frame (direction : string) (s : Z) (this : Visual) :
  viewModel (fire this (Move direction s)) = viewModel this
  /\ visualSettings (fire this (Move direction s)) = visualSettings this
  /\ lastSelected (fire this (Move direction s)) = lastSelected this.
Proof.
  by destruct (fire_Move direction s this) as [[_ ->]|(id & _ & ->)].
Qed.

Lemma run_moves_frame (moves : list Event) (this : Visual) :
  Forall isMove moves ->
  viewModel (run moves this) = viewModel this
  /\ visualSettings (run moves this) = visualSettings this.
Proof.
  intros Hmoves. revert this.
  induction Hmoves as [|ev moves Hev _ IH]; intros this; [done|].
  rewrite run_cons. destruct (IH (fire this ev)) as [-> ->].
  destruct ev as [|direction s]; [done|].
  by destruct (fire_Move_frame direction s this) as (-> & -> & _).
Qed.

(** X14. What the events leave alone.  A refresh, whether it returns or
    throws, changes neither the pose nor the selections, and a second refresh
    with the same data changes nothing more; one that throws changes nothing
    at all, so the table before it stays in use.  A move changes neither the
    table nor the settings.  No event changes [lastSelected]. *)
Theorem event_frames (options : VisualUpdateOptions) (direction : string)
    (s : Z) (this : Visual) :
  pose (fire this (Refresh options)) = pose this
  /\ selectionManager (fire this (Refresh options)) = selectionManager this
  /\ fire (fire this (Refresh options)) (Refresh options)
     = fire this (Refresh options)
  /\ (forall e, visualTransform options = Throw e ->
        fire this (Refresh options) = this)
  /\ viewModel (fire this (Move direction s)) = viewModel this
  /\ visualSettings (fire this (Move direction s)) = visualSettings this
  /\ lastSelected (fire this (Refresh options)) = lastSelected this
  /\ lastSelected (fire this (Move direction s)) = lastSelected this.
Proof.
  destruct (fire_Refresh_pose options this) as [Hpose Hsel].
  destruct (fire_Move_frame direction s this) as (Hvm & Hvs & Hls).
  repeat (split; [done|]). repeat split; try done;
    unfold fire, handle, update; destruct (visualTransform options) eqn:Hvt;
    simpl; rewrite ?Hvt; done.
Qed.

(** X15. The property pane shows what the last refresh read.  After a refresh
    that returned and any moves, the object "settings" is enumerated as one
    instance holding the three settings of the view model, with the range 1
    to 100 declared for the step increment and no selector; any other object
    is enumerated as the empty list. *)
Theorem enumerate_reports_settings (options : VisualUpdateOptions)
    (this refreshed : Visual) (moves : list Event) (name : string) :
  update options this = Normal refreshed ->
  Forall isMove moves ->
  exists vm,
    visualTransform options = Normal vm
    /\ enumerateObjectInstances "settings" (run moves refreshed)
       = Normal [ {| objectName := "settings";
                     properties := settings vm;
                     validValues_incremental :=
                       {| numberRange_min := 1; numberRange_max := 100 |};
                     selector := None |} ]
    /\ (name <> "settings" ->
        enumerateObjectInstances name (run moves refreshed) = Normal []).
Proof.
  intros Hupdate Hmoves. unfold update in Hupdate.
  apply bind_Normal in Hupdate as (vm & Hvm & Hret). injection Hret as <-.
  exists vm. split; [done|]. unfold enumerateObjectInstances. split.
  - destruct (run_moves_frame moves
                {| visualSettings := Some (settings vm);
                   selectionManager := selectionManager this;
                   viewModel := Some vm;
                   lastSelected := lastSelected this;
                   lastHorizontal := lastHorizontal this;
                   lastVertical := lastVertical this;
                   lastRotation := lastRotation this |} Hmoves) as [_ ->].
    simpl. by destruct (settings vm).
  - intros Hname. by rewrite decide_False.
Qed.

(** X16. On the headings, a one-step translate move targets one of the eight
    cells around the pad: each grid index changes by at most one and not both
    stay, the heading is kept, both indices change exactly at the odd
    headings (45, 135, 225, 315), and the backward move targets the cell
    opposite to the forward one. *)
Theorem translate_reaches_neighbour (this : Visual) (s : Z) :
  HeadingTable M ->
  heading (lastRotation this) ->
  s = 1 \/ s = -1 ->
  exists dh dv,
    newPosition "d" s this
    = (lastHorizontal this + dh, lastVertical this + dv, lastRotation this)
    /\ newPosition "d" (- s) this
       = (lastHorizontal this - dh, lastVertical this - dv, lastRotation this)
    /\ dh = headingSin (lastRotation this) * s
    /\ dv = headingCos (lastRotation this) * s
    /\ -1 <= dh <= 1
    /\ -1 <= dv <= 1
    /\ (dh <> 0 \/ dv <> 0)
    /\ (dh <> 0 /\ dv <> 0 <-> lastRotation this mod 90 = 45).
Proof.
  intros Htable Hheading Hs.
  destruct (Htable _ Hheading) as [Hsin Hcos].
  exists (headingSin (lastRotation this) * s),
         (headingCos (lastRotation this) * s).
  unfold newPosition, displacement. simpl. rewrite Hsin, Hcos.
  split; [done|]. split; [pair_lia|]. split; [done|]. split; [done|].
  destruct Hheading as (k & Hk & ->).
  assert (k = 0 \/ k = 1 \/ k = 2 \/ k = 3 \/ k = 4 \/ k = 5 \/ k = 6 \/ k = 7)
    as Hcases by lia.
  destruct Hs as [-> | ->];
    destruct Hcases as [->|[->|[->|[->|[->|[->|[->| ->]]]]]]];
    vm_compute; repeat split; intros; try tauto; try discriminate;
    try (left; discriminate); try (right; discriminate);
    repeat match goal with H : _ /\ _ |- _ => destruct H end; congruence.
Qed.

End Selection.

(** ** The axis data points *)

(** X17. A refresh that returns lists, for the horizontal and for the vertical
    role, one data point per value of the category the role is resolved to,
    and none when the role is unresolved.  None of them carries a measure
    name, so a lookup over them finds nothing. *)
Theorem axis_data_points (options : VisualUpdateOptions) (vm : ViewModel)
    (key : string) :
  visualTransform options = Normal vm ->
  exists dv cat cats,
    dataViews options !! 0%nat = Some dv
    /\ categorical dv = Some cat
    /\ categories cat = Some cats
    /\ length (horizontalDataPoints vm)
       = match categoryAt cats (horizontalIdxInCategories (roleIndices dv cats)) with
         | Some hc => length (values hc)
         | None => 0%nat
         end
    /\ length (verticalDataPoints vm)
       = match categoryAt cats (verticalIdxInCategories (roleIndices dv cats)) with
         | Some vc => length (values vc)
         | None => 0%nat
         end
    /\ findSelectionId key (horizontalDataPoints vm ++ verticalDataPoints vm)
       = None.
Proof.
  intros (dv & cat & cats & first & dps & hdps & vdps & Hdv & Hcat & Hcats
          & _ & _ & Hh & Hv & -> & -> & _)%visualTransform_Normal.
  exists dv, cat, cats. repeat (split; [done|]).
  destruct (scanCategories_last (roleNames dv) cats) as (Hlh & Hlv & _).
  fold (roleIndices dv cats) in Hlh, Hlv.
  assert (forall P idx dps,
            isLastIndex P cats idx ->
            guardedAxisDataPoints idx (categoryAt cats idx) = Normal dps ->
            length dps = match categoryAt cats idx with
                         | Some c => length (values c)
                         | None => 0%nat
                         end
            /\ forall dp, dp ∈ dps -> selectorMetadata (selectionId dp) = None)
    as Haxis.
  { intros P idx dps' Hlast Hdps'.
    destruct (guardedAxisDataPoints_last P cats idx Hlast) as (dps'' & Heq & Hnone).
    rewrite Heq in Hdps'. injection Hdps' as <-. split; [|done].
    unfold guardedAxisDataPoints in Heq.
    destruct (isLastIndex_categoryAt P cats idx Hlast)
      as [[-> ->]|(Hidx & c & Hc & _)].
    - by injection Heq as <-.
    - rewrite Hc in *. rewrite bool_decide_true in Heq by done.
      injection Heq as <-. unfold axisDataPoints. by rewrite length_imap. }
  destruct (Haxis _ _ _ Hlh Hh) as [-> Hnh].
  destruct (Haxis _ _ _ Hlv Hv) as [-> Hnv].
  repeat (split; [done|]).
  apply findSelectionId_None. intros dp [Hin|Hin]%elem_of_app.
  - by rewrite (Hnh dp Hin).
  - by rewrite (Hnv dp Hin).
Qed.

(** ** The further properties at work on sample tables *)

Lemma refresh_records_rows_witness :
  exists vm,
    visualTransform (locationTable None [(1, 1, 0); (1, 2, 0)]) = Normal vm
    /\ length (dataPoints vm) = 2%nat.
Proof.
  destruct (visualTransform (locationTable None [(1, 1, 0); (1, 2, 0)]))
    as [vm|e] eqn:Hvm; [|by vm_compute in Hvm].
  exists vm. split; [reflexivity|].
  destruct (refresh_records_rows _ vm Hvm)
    as (dv & cat & cats & first & Hdv & Hcat & Hcats & Hfirst & Hlen & _).
  rewrite Hlen. simpl in Hdv. injection Hdv as <-.
  simpl in Hcat. injection Hcat as <-. simpl in Hcats. injection Hcats as <-.
  simpl in Hfirst. by injection Hfirst as <-.
Defined.

Lemma refresh_without_rows_witness :
  exists dv cat cats first vm,
    dataViews horizontalNoRows !! 0%nat = Some dv
    /\ categorical dv = Some cat
    /\ categories cat = Some cats
    /\ cats !! 0%nat = Some first
    /\ values first = []
    /\ visualTransform horizontalNoRows = Normal vm
    /\ dataPoints vm = []
    /\ step "d" 1 (fire Visual_constructor (Refresh horizontalNoRows))
       = Normal (fire Visual_constructor (Refresh horizontalNoRows)).
Proof.
  eexists _, _, _, _.
  assert (forall (A : Type) (x : A), Some x = Some x) as Hrefl by done.
  destruct (refresh_without_rows horizontalNoRows _ _ _ _ Visual_constructor
              "d" 1 (Hrefl _ _) (Hrefl _ _) (Hrefl _ _) (Hrefl _ _) eq_refl)
    as (vm & Hvm & Hempty & _ & Hstep).
  exists vm. repeat (split; [reflexivity|]). by repeat split.
Defined.

Lemma numberOfAxis_counts_roles_witness :
  exists vm,
    visualTransform (locationTable None [(1, 1, 0)]) = Normal vm
    /\ numberOfAxis vm = 3.
Proof.
  destruct (visualTransform (locationTable None [(1, 1, 0)]))
    as [vm|e] eqn:Hvm; [|by vm_compute in Hvm].
  exists vm. split; [reflexivity|].
  apply (numberOfAxis_counts_roles _ vm Hvm).
  vm_compute in Hvm. by injection Hvm as <-.
Defined.

(** A step forward and a step back on the table {(1,1,0), (1,2,0)}. *)
Lemma translates_add_up_witness :
  let this :=
    run [Refresh (locationTable None [(1, 1, 0); (1, 2, 0)])] Visual_constructor in
  commitAll "d" [1; -1] this
  /\ pose (run (Move "d" <$> [1; -1]) this) = (1, 1, 0).
Proof.
  intros this.
  assert (commitAll "d" [1; -1] this) as Hall by decided.
  split; [exact Hall|].
  exact (eq_trans (translates_add_up [1; -1] this Hall) eq_refl).
Defined.

(** Eight turns to the right on a table with all the headings at (1, 1). *)
Lemma turns_add_up_witness :
  let this := run [Refresh (locationTable None allHeadings)] Visual_constructor in
  let steps := [1; 1; 1; 1; 1; 1; 1; 1] in
  0 <= lastRotation this < 360
  /\ Forall (fun s => s = 1 \/ s = -1) steps
  /\ commitAll "r" steps this
  /\ pose (run (Move "r" <$> steps) this) = (1, 1, 0).
Proof.
  intros this steps.
  assert (0 <= lastRotation this < 360) as Hr by (by vm_compute).
  assert (Forall (fun s => s = 1 \/ s = -1) steps) as Hsteps by decided.
  assert (commitAll "r" steps this) as Hall by decided.
  split; [exact Hr|]. split; [exact Hsteps|]. split; [exact Hall|].
  exact (eq_trans (turns_add_up steps this Hr Hsteps Hall) eq_refl).
Defined.

(** Up, then down, on the table {(1,1,0), (1,2,0)}. *)
Lemma opposite_buttons_cancel_witness :
  let this :=
    run [Refresh (locationTable None [(1, 1, 0); (1, 2, 0)])] Visual_constructor in
  (0 < 4)%nat
  /\ 0 <= lastRotation this < 360
  /\ length (selectionManager (press (press this 0) (opposite 0))) = 2%nat
  /\ pose (press this 0) = (1, 2, 0)
  /\ pose (press (press this 0) (opposite 0)) = pose this.
Proof.
  intros this.
  assert (0 < 4)%nat as Hi by lia.
  assert (0 <= lastRotation this < 360) as Hr by (by vm_compute).
  assert (length (selectionManager (press (press this 0) (opposite 0)))
          = (length (selectionManager this) + 2)%nat) as Hlen by (by vm_compute).
  split; [exact Hi|]. split; [exact Hr|]. split; [by vm_compute|].
  split; [by vm_compute|].
  exact (opposite_buttons_cancel this 0 Hi Hr Hlen).
Defined.

(** The position (1, 2, 0) listed twice: the first of the two is selected. *)
Lemma step_selects_first_match_witness :
  let this :=
    run [Refresh (locationTable None [(1, 1, 0); (1, 2, 0); (1, 2, 0)])]
        Visual_constructor in
  exists this',
    step "d" 1 this = Normal this'
    /\ selectionManager this' = [selectionId (locationRecord 1 (1, 2, 0))].
Proof.
  intros this.
  destruct (viewModel this) as [vm|] eqn:Hvm; [|by vm_compute in Hvm].
  assert (dataPoints vm
          = [locationRecord 0 (1, 1, 0)]
            ++ locationRecord 1 (1, 2, 0) :: [locationRecord 2 (1, 2, 0)])
    as Htable by (vm_compute in Hvm; by injection Hvm as <-).
  eexists. split.
  - apply (step_selects_first_match "d" 1 this vm _ _ _ Hvm Htable).
    + by vm_compute.
    + intros dp' ->%list_elem_of_singleton. by vm_compute.
  - by vm_compute.
Defined.

(** A refresh with the step increment set to 2, then a move. *)
Lemma enumerate_reports_settings_witness :
  let options := locationTable (incrementalObjects 2) [(1, 1, 0); (1, 2, 0)] in
  exists refreshed,
    update options Visual_constructor = Normal refreshed
    /\ Forall isMove [Move "d" 1]
    /\ (incremental ∘ properties <$>
          match enumerateObjectInstances "settings" (run [Move "d" 1] refreshed) with
          | Normal instances => instances
          | Throw _ => []
          end) = [PropNumber 2]
    /\ enumerateObjectInstances "other" (run [Move "d" 1] refreshed) = Normal [].
Proof.
  intros options.
  destruct (update options Visual_constructor) as [refreshed|e] eqn:Hupdate;
    [|by vm_compute in Hupdate].
  assert (Forall isMove [Move "d" 1]) as Hmoves by decided.
  exists refreshed. split; [reflexivity|]. split; [exact Hmoves|].
  destruct (enumerate_reports_settings options Visual_constructor refreshed
              [Move "d" 1] "other" Hupdate Hmoves) as (vm & Hvm & -> & Hother).
  split; [|by apply Hother].
  vm_compute in Hvm. by injection Hvm as <-.
Defined.

(** At heading 45 the forward move goes to the upper right neighbour. *)
Lemma translate_reaches_neighbour_witness :
  let this :=
    {| visualSettings := None; selectionManager := []; viewModel := None;
       lastSelected := 0; lastHorizontal := 1; lastVertical := 1;
       lastRotation := 45 |} in
  HeadingTable headingMath
  /\ heading (lastRotation this)
  /\ (1 = 1 \/ 1 = -1)
  /\ exists dh dv,
       newPosition "d" 1 this = (1 + dh, 1 + dv, 45) /\ dh = 1 /\ dv = 1.
Proof.
  intros this.
  assert (heading (lastRotation this)) as Hh by (exists 1; simpl; lia).
  assert (1 = 1 \/ 1 = -1) as Hs by (by left).
  split; [exact headingMath_table|]. split; [exact Hh|]. split; [exact Hs|].
  destruct (translate_reaches_neighbour this 1 headingMath_table Hh Hs)
    as (dh & dv & Hfwd & _ & Hdh & Hdv & _).
  exists dh, dv. split; [exact Hfwd|]. split; [exact Hdh|exact Hdv].
Defined.

(** In exact arithmetic, east is (1, 0). *)
Lemma exactMath_table_witness :
  heading 90
  /\ roundScaledSin (MathLib := exactMath) 1 90 = 1
  /\ roundScaledCos (MathLib := exactMath) 1 90 = 0.
Proof.
  assert (heading 90) as Hh by (exists 2; lia).
  split; [exact Hh|]. exact (exactMath_table 90 Hh).
Defined.

Lemma axis_data_points_witness :
  exists vm,
    visualTransform (locationTable None [(1, 1, 0); (1, 2, 0)]) = Normal vm
    /\ length (horizontalDataPoints vm) = 2%nat
    /\ findSelectionId "X1Y1V0" (horizontalDataPoints vm ++ verticalDataPoints vm)
       = None.
Proof.
  destruct (visualTransform (locationTable None [(1, 1, 0); (1, 2, 0)]))
    as [vm|e] eqn:Hvm; [|by vm_compute in Hvm].
  exists vm. split; [reflexivity|].
  destruct (axis_data_points _ vm "X1Y1V0" Hvm)
    as (dv & cat & cats & _ & _ & _ & _ & _ & Hnone).
  split; [|exact Hnone]. vm_compute in Hvm. by injection Hvm as <-.
Defined.

(** The pad on the table {(1,1,0), (1,2,0)}: forward it moves, and forward
    again it stays, (1, 3, 0) not being a row. *)
Lemma locationTable_move_witness :
  let refreshed :=
    fire Visual_constructor (Refresh (locationTable None [(1, 1, 0); (1, 2, 0)])) in
  let moved := fire refreshed (Move "d" 1) in
  pose moved = (1, 2, 0) /\ fire moved (Move "d" 1) = moved.
Proof.
  intros refreshed moved. split.
  - apply (eq_trans (proj1 (locationTable_move None [(1, 1, 0); (1, 2, 0)]
                              Visual_constructor "d" 1)
                       ltac:(by apply (bool_decide_unpack _); vm_compute))).
    by vm_compute.
  - by vm_compute.
Defined.
